(** * Verba upload reconciliation: fragment assembler, transport reporter,
    existence probe and import reconciler

    Shallow embedding of
      - [goldenverba/server/helpers.py]: [BatchManager], [LoggerManager];
      - [goldenverba/server/api.py]: [check_document_in_weaviate_with_retry],
        [resilient_import_document].

    Python objects that are mutated in place ([self.batches], the fields of
    a [LoggerManager]) are threaded as explicit state; exceptions are the
    [Raise] results of a small state-and-error monad, and [try]/[except] is
    a combinator of that monad, so that "never raises" is a statement about
    the code and not about a type. *)

From Stdlib Require Import ZArith QArith String Ascii List Bool Lia.
From stdpp Require Import base option list gmap strings.

Local Open Scope string_scope.
Local Open Scope list_scope.

(* ===================================================================== *)
(** * Part I. The model                                                    *)
(* ===================================================================== *)

(** ** Python exceptions and the state-and-error monad *)

(** Every class below derives from [Exception], so a bare
    [except Exception] catches each of them. *)
Inductive exn : Type :=
| Exception (m : string)
| KeyError (m : string)
| AttributeError (m : string)
| TimeoutError (m : string)        (* asyncio.TimeoutError *)
| ValidationError (m : string).    (* pydantic: model_validate_json *)

(** [str(e)] *)
Definition str_exn (e : exn) : string :=
  match e with
  | Exception m | KeyError m | AttributeError m | TimeoutError m
  | ValidationError m => m
  end.

Definition is_TimeoutError (e : exn) : bool :=
  match e with TimeoutError _ => true | _ => false end.

Inductive result (A : Type) : Type :=
| Ok (a : A)
| Raise (e : exn).
Arguments Ok {A} a.
Arguments Raise {A} e.

(** A computation over a mutable state [S]: the state written before an
    exception is raised stays written. *)
Definition M (S A : Type) : Type := S → S * result A.

#[global] Instance M_ret {S} : MRet (M S) := λ A a s, (s, Ok a).
#[global] Instance M_bind {S} : MBind (M S) := λ A B f c s,
  match c s with
  | (s', Ok a) => f a s'
  | (s', Raise e) => (s', Raise e)
  end.

Definition raise {S A} (e : exn) : M S A := λ s, (s, Raise e).
Definition get {S} : M S S := λ s, (s, Ok s).
Definition put {S} (s' : S) : M S unit := λ _, (s', Ok tt).
Definition lift_result {S A} (r : result A) : M S A := λ s, (s, r).

(** [try: c  except Exception as e: h e] *)
Definition try_except {S A} (c : M S A) (h : exn → M S A) : M S A := λ s,
  match c s with
  | (s', Ok a) => (s', Ok a)
  | (s', Raise e) => h e s'
  end.

(** [try: c  except <class selected by sel> as e: h e] *)
Definition try_except_if {S A} (sel : exn → bool) (c : M S A) (h : exn → M S A)
  : M S A := λ s,
  match c s with
  | (s', Ok a) => (s', Ok a)
  | (s', Raise e) => if sel e then h e s' else (s', Raise e)
  end.

(** A [for] loop whose body may [return]: the body yields [Some a] for
    [return a] and [None] when it falls through or [continue]s. *)
Fixpoint for_each {S A I} (xs : list I) (body : I → M S (option A))
  : M S (option A) :=
  match xs with
  | [] => mret None
  | x :: xs' =>
      r ← body x;
      match r with
      | Some a => mret (Some a)
      | None => for_each xs' body
      end
  end.

(** [range(n)] *)
Definition range (n : Z) : list Z := map Z.of_nat (seq 0 (Z.to_nat n)).

(** ** Python strings *)

Definition lower_ascii (c : ascii) : ascii :=
  let n := nat_of_ascii c in
  if (65 <=? n)%nat && (n <=? 90)%nat then ascii_of_nat (n + 32) else c.

(** [s.lower()], on the ASCII letters. *)
Fixpoint lower (s : string) : string :=
  match s with
  | EmptyString => EmptyString
  | String c s' => String (lower_ascii c) (lower s')
  end.

(** [p in s] for two strings *)
Fixpoint str_in (p s : string) : bool :=
  String.prefix p s ||
  match s with
  | EmptyString => false
  | String _ s' => str_in p s'
  end.

(** [sep.join(xs)] with [sep = ""] *)
Definition join (xs : list string) : string := foldr String.append "" xs.

(** ** Types of [goldenverba/server/types.py]

    The module is not among the sources; the records carry the fields the
    code under study reads. *)

(** The code only passes a [Credentials] object on. *)
Record Credentials : Type := { credentials_data : string }.

Record DataBatchPayload : Type := {
  chunk : string;
  isLastChunk : bool;
  total : Z;
  fileID : string;
  order : Z;
  credentials : option Credentials
}.

Record FileConfig : Type := { fc_fileID : string; filename : string }.

(** Modelled from the spec: [FileStatus] is declared in
    [goldenverba/server/types.py], absent from the sources; the spec gives
    the phases of a status report as PROCESSING, DONE and ERROR. *)
Inductive FileStatus : Type := PROCESSING | DONE | ERROR.

Record StatusReport : Type := {
  sr_fileID : string;
  sr_status : FileStatus;
  sr_message : string;
  sr_took : Q
}.

(** ** [class BatchManager] *)

(** A Python [dict] keeps its keys in insertion order; [chunks] is iterated,
    so it is an association list in that order. *)
Definition dict (V : Type) : Type := list (Z * V).

(** [d[k]] as [d.get(k)] *)
Fixpoint dict_get {V} (d : dict V) (k : Z) : option V :=
  match d with
  | [] => None
  | (k', v') :: d' => if (k' =? k)%Z then Some v' else dict_get d' k
  end.

(** [d[k] = v]: an existing key keeps its position, a new key goes last. *)
Fixpoint dict_set {V} (d : dict V) (k : Z) (v : V) : dict V :=
  match d with
  | [] => [(k, v)]
  | (k', v') :: d' =>
      if (k' =? k)%Z then (k', v) :: d' else (k', v') :: dict_set d' k v
  end.

(** [d.keys()] *)
Definition keys {V} (d : dict V) : list Z := map fst d.

(** [[d[k] for k in d]] *)
Definition values {V} (d : dict V) : list V := map snd d.

(** One entry of [self.batches]:
    [{"fileID": ..., "total": ..., "chunks": {}}] *)
Record Batch : Type := {
  b_fileID : string;
  b_total : Z;
  b_chunks : dict string
}.

Definition set_chunks (b : Batch) (c : dict string) : Batch :=
  {| b_fileID := b_fileID b; b_total := b_total b; b_chunks := c |}.

(** [self.batches]: keyed by file id and never iterated. *)
Abbreviation BatchManager := (gmap string Batch).

(** [BatchManager.__init__] *)
Definition BatchManager_init : BatchManager := ∅.

Section BatchManagerModel.

(** [FileConfig.model_validate_json]: returns a [FileConfig] or raises. *)
Variable model_validate_json : string → result FileConfig.

(** The text [check_batch] hands to the parser. *)
Definition assembled (b : Batch) : string := join (values (b_chunks b)).

Definition check_batch (fileID : string) : M BatchManager (option FileConfig) :=
  batches ← get;
  match batches !! fileID with
  | None => raise (KeyError fileID)
  | Some b =>
      if (Z.of_nat (length (keys (b_chunks b))) =? b_total b)%Z then
        let chunks := b_chunks b in
        let data := join (values chunks) in
        cfg ← lift_result (model_validate_json data);
        mret (Some cfg)
      else mret None
  end.

(** Lines 148-155: create the entry on first sight and store the chunk. *)
Definition record_chunk (payload : DataBatchPayload) : M BatchManager unit :=
  batches ← get;
  (match batches !! fileID payload with
   | None =>
       put (<[fileID payload :=
                {| b_fileID := fileID payload;
                   b_total := total payload;
                   b_chunks := [] |}]> batches)
   | Some _ => mret tt
   end);;
  batches ← get;
  match batches !! fileID payload with
  | None => raise (KeyError (fileID payload))
  | Some b =>
      put (<[fileID payload :=
               set_chunks b (dict_set (b_chunks b) (order payload) (chunk payload))]>
             batches)
  end.

(** [del self.batches[k]] *)
Definition del_batch (k : string) : M BatchManager unit :=
  batches ← get;
  match batches !! k with
  | None => raise (KeyError k)
  | Some _ => put (delete k batches)
  end.

Definition add_batch (payload : DataBatchPayload)
  : M BatchManager (option FileConfig) :=
  try_except
    (record_chunk payload;;
     fileConfig ← check_batch (fileID payload);
     (if bool_decide (fileConfig ≠ None) || isLastChunk payload
      then del_batch (fileID payload)
      else mret tt);;
     mret fileConfig)
    (λ e, (* msg.fail(...); the function falls off its end *) mret None).

End BatchManagerModel.

(** The entry of [payload.fileID] once line 155 has stored the chunk. *)
Definition recorded (bm : BatchManager) (payload : DataBatchPayload) : Batch :=
  match bm !! fileID payload with
  | Some b => set_chunks b (dict_set (b_chunks b) (order payload) (chunk payload))
  | None =>
      {| b_fileID := fileID payload;
         b_total := total payload;
         b_chunks := [(order payload, chunk payload)] |}
  end.

(** [len(self.batches[fileID]["chunks"].keys())] *)
Definition count (b : Batch) : Z := Z.of_nat (length (keys (b_chunks b))).

(** Every table built by the program holds dictionaries: no key twice. *)
Definition well_formed (bm : BatchManager) : Prop :=
  ∀ k b, bm !! k = Some b → NoDup (keys (b_chunks b)).

(** Sample values used to run the model. *)
Definition fragment (id : string) (index : Z) (text : string) (declared : Z)
    (final : bool) : DataBatchPayload :=
  {| chunk := text; isLastChunk := final; total := declared;
     fileID := id; order := index; credentials := None |}.

(** A parser that accepts exactly the texts opening with a brace. *)
Definition braces_parser (s : string) : result FileConfig :=
  if String.prefix "{" s
  then Ok {| fc_fileID := "f1"; filename := s |}
  else Raise (ValidationError "Invalid JSON").

(** A parser that accepts every text. *)
Definition lenient_parser (s : string) : result FileConfig :=
  Ok {| fc_fileID := "f1"; filename := s |}.

(** ** The outside world: the duplex socket and the document store

    What the socket and the store answer is not decided by the program.
    Each is an oracle that sees the history of everything done so far, so
    the answers may change from one call to the next; every call is written
    to that history together with its outcome. *)

Inductive WebSocketState : Type := CONNECTING | CONNECTED | DISCONNECTED | RESPONSE.

#[global] Instance WebSocketState_eq_dec : EqDecision WebSocketState.
Proof. solve_decision. Defined.

Record CreateNewDocument : Type := {
  new_file_id : string;
  cnd_filename : string;
  original_file_id : string
}.

Inductive Payload : Type :=
| StatusPayload (r : StatusReport)
| NewDocumentPayload (d : CreateNewDocument).

(** A candidate returned by the store; [title] is
    [doc.properties.get("title")]. *)
Record Doc : Type := { uuid : string; title : option string }.

Inductive event : Type :=
| EvReport (r : StatusReport)                 (* the msg.info line opening send_report *)
| EvSendJson (p : Payload) (outcome : option exn)   (* socket.send_json(payload) *)
| EvSleep (secs : Q)                          (* asyncio.sleep(secs) *)
| EvExists (name : string) (r : result bool)  (* client.collections.exists(name) *)
| EvBm25 (query : string) (limit : Z) (r : result (list Doc))
| EvFetch (title_eq : string) (limit : Z) (r : result (list Doc))
| EvConnect (outcome : option exn)            (* client_manager.connect(credentials) *)
| EvImportReturned (outcome : option exn).    (* manager.import_document(...) came back *)

Abbreviation trace := (list event).

Record WebSocket : Type := {
  (** [None]: the payload went out; [Some e]: [send_json] raised [e]. *)
  send_json : trace → Payload → option exn;
  (** [None]: the object has no [client_state] attribute. *)
  client_state : trace → option WebSocketState
}.

Record Client : Type := {
  collections_exists : trace → string → result bool;
  (** [asyncio.wait_for(collection.query.bm25(query, limit, ...), timeout=30.0)];
      running out of time is [Raise (TimeoutError _)]. *)
  query_bm25 : trace → string → Z → result (list Doc);
  (** [collection.query.fetch_objects(filters=Filter.by_property("title").equal(v), limit, ...)] *)
  query_fetch_objects : trace → string → Z → result (list Doc)
}.

(** ** [class LoggerManager] *)

Record LoggerManager : Type := {
  socket : option WebSocket;
  websocket_failed : bool;
  retry_count : Z;
  max_retries : Z;
  error_logged : bool
}.

(** [LoggerManager.__init__] *)
Definition LoggerManager_init (socket : option WebSocket) : LoggerManager :=
  {| socket := socket;
     websocket_failed := false;
     retry_count := 0;
     max_retries := 3;
     error_logged := false |}.

(** The logger object (shared by everyone who holds it) and the history. *)
Record St : Type := { logger : LoggerManager; history : trace }.

Definition get_self : M St LoggerManager := λ s, (s, Ok (logger s)).
Definition get_history : M St trace := λ s, (s, Ok (history s)).

Definition emit (e : event) : M St unit := λ s,
  ({| logger := logger s; history := history s ++ [e] |}, Ok tt).

(** [self.websocket_failed = b] *)
Definition set_websocket_failed (b : bool) : M St unit := λ s,
  ({| logger := {| socket := socket (logger s);
                   websocket_failed := b;
                   retry_count := retry_count (logger s);
                   max_retries := max_retries (logger s);
                   error_logged := error_logged (logger s) |};
      history := history s |}, Ok tt).

(** [self.error_logged = b] *)
Definition set_error_logged (b : bool) : M St unit := λ s,
  ({| logger := {| socket := socket (logger s);
                   websocket_failed := websocket_failed (logger s);
                   retry_count := retry_count (logger s);
                   max_retries := max_retries (logger s);
                   error_logged := b |};
      history := history s |}, Ok tt).

(** [await asyncio.sleep(secs)] *)
Definition sleep (secs : Q) : M St unit := emit (EvSleep secs).

(** [await self.socket.send_json(payload)] *)
Definition socket_send_json (payload : Payload) : M St unit :=
  self ← get_self;
  match socket self with
  | None => raise (AttributeError "'NoneType' object has no attribute 'send_json'")
  | Some ws =>
      h ← get_history;
      let outcome := send_json ws h payload in
      emit (EvSendJson payload outcome);;
      match outcome with
      | None => mret tt
      | Some e => raise e
      end
  end.

Definition dquote : string := String "034"%char EmptyString.

(** The phrases of lines 58-64. *)
Definition permanent_phrases : list string :=
  [ "need to call " +:+ dquote +:+ "accept" +:+ dquote +:+ " first";
    "websocket is not connected";
    "cannot call " +:+ dquote +:+ "send" +:+ dquote
      +:+ " once a close message has been sent";
    "websocket connection is closed";
    "connection is closed" ].

(** [any(phrase in str(e).lower() for phrase in [...])] *)
Definition is_permanent_error (e : exn) : bool :=
  let error_str := lower (str_exn e) in
  existsb (λ phrase, str_in phrase error_str) permanent_phrases.

(** Lines 67-69 and 79-81: the warning is printed once. *)
Definition log_permanent_failure_once : M St unit :=
  self ← get_self;
  if negb (error_logged self) then set_error_logged true else mret tt.

Definition status_payload (file_Id : string) (status : FileStatus)
    (message : string) (took : Q) : Payload :=
  StatusPayload {| sr_fileID := file_Id; sr_status := status;
                   sr_message := message; sr_took := took |}.

(** One turn of the loop of lines 40-82: [Some tt] stands for [return],
    [None] for going on to the next attempt. *)
Definition send_attempt (file_Id : string) (status : FileStatus)
    (message : string) (took : Q) (attempt : Z) : M St (option unit) :=
  try_except
    (let payload := status_payload file_Id status message took in
     socket_send_json payload;;
     mret (Some tt))
    (λ e,
       if is_permanent_error e then
         set_websocket_failed true;;
         log_permanent_failure_once;;
         mret (Some tt)
       else
         self ← get_self;
         if (attempt <? max_retries self - 1)%Z then
           sleep (1 # 2)%Q;;
           mret None
         else
           set_websocket_failed true;;
           log_permanent_failure_once;;
           mret (Some tt)).

Definition _try_send_with_retry (file_Id : string) (status : FileStatus)
    (message : string) (took : Q) : M St unit :=
  self ← get_self;
  for_each (range (max_retries self)) (send_attempt file_Id status message took);;
  mret tt.

Definition is_terminal (status : FileStatus) : bool :=
  match status with DONE | ERROR => true | PROCESSING => false end.

Definition send_report (file_Id : string) (status : FileStatus)
    (message : string) (took : Q) : M St unit :=
  emit (EvReport {| sr_fileID := file_Id; sr_status := status;
                    sr_message := message; sr_took := took |});;
  (if is_terminal status then
     self ← get_self;
     if websocket_failed self then
       set_websocket_failed false;;
       set_error_logged false
     else mret tt
   else mret tt);;
  self ← get_self;
  if bool_decide (socket self ≠ None) && negb (websocket_failed self) then
    _try_send_with_retry file_Id status message took
  else mret tt.

Definition _is_websocket_connected : M St bool :=
  self ← get_self;
  match socket self with
  | None => mret false
  | Some ws =>
      try_except
        (h ← get_history;
         match client_state ws h with
         | Some st => mret (bool_decide (st = CONNECTED))
         | None => mret true
         end)
        (λ _, mret false)
  end.

Definition send_heartbeat (file_Id : string) (message : string) : M St unit :=
  self ← get_self;
  ok ← (if bool_decide (socket self ≠ None) && negb (websocket_failed self)
        then _is_websocket_connected
        else mret false);
  if (ok : bool) then
    try_except
      (let payload := status_payload file_Id PROCESSING message 0%Q in
       socket_send_json payload)
      (λ e, set_websocket_failed true)
  else mret tt.

Definition create_new_document (new_file_id document_name original_file_id : string)
  : M St unit :=
  self ← get_self;
  if bool_decide (socket self ≠ None) && negb (websocket_failed self) then
    try_except
      (let payload := NewDocumentPayload
                        {| new_file_id := new_file_id;
                           cnd_filename := document_name;
                           original_file_id := original_file_id |} in
       socket_send_json payload)
      (λ e, set_websocket_failed true;; log_permanent_failure_once)
  else mret tt.

(** The calls a holder of the logger can make. *)
Inductive call : Type :=
| SendReport (file_Id : string) (status : FileStatus) (message : string) (took : Q)
| SendHeartbeat (file_Id message : string)
| CreateNewDocumentCall (new_file_id document_name original_file_id : string).

Definition run_call (c : call) : M St unit :=
  match c with
  | SendReport f st m t => send_report f st m t
  | SendHeartbeat f m => send_heartbeat f m
  | CreateNewDocumentCall a b c => create_new_document a b c
  end.

Definition run_calls (cs : list call) (s : St) : St :=
  fold_left (λ s c, fst (run_call c s)) cs s.

(** Everything but a DONE or ERROR status report. *)
Definition is_nonterminal_call (c : call) : bool :=
  match c with
  | SendReport _ st _ _ => negb (is_terminal st)
  | _ => true
  end.

Definition is_send (ev : event) : bool :=
  match ev with EvSendJson _ _ => true | _ => false end.

(** The attempts on the socket that a history holds. *)
Definition socket_sends (h : trace) : list event := List.filter is_send h.

(** The states a reporter can be in: built by [__init__], then used
    through its methods, while others write to the history in between. *)
Inductive reachable : St → Prop :=
| reachable_init sock h :
    reachable {| logger := LoggerManager_init sock; history := h |}
| reachable_call s c :
    reachable s → reachable (fst (run_call c s))
| reachable_world s h :
    reachable s → reachable {| logger := logger s; history := h |}.

(** The retry policy in the words of the spec, as the events one send of
    [payload] over the socket [ws] leaves behind:
    [retry_cycle ws payload h n evs failed] reads "starting at history [h]
    with [n] attempts allowed, the send performs [evs] and ends with the
    reporter marked failed, or not". An attempt that goes out ends the
    cycle; a failure with an irrecoverable signature ends it at once,
    failed; any other failure is followed by a pause of half a second and a
    further attempt while attempts remain, and ends it, failed, when none
    does. *)
Inductive retry_cycle (ws : WebSocket) (payload : Payload)
  : trace → nat → list event → bool → Prop :=
| cycle_sent h n :
    send_json ws h payload = None →
    retry_cycle ws payload h (S n) [EvSendJson payload None] false
| cycle_permanent h n e :
    send_json ws h payload = Some e →
    is_permanent_error e = true →
    retry_cycle ws payload h (S n) [EvSendJson payload (Some e)] true
| cycle_exhausted h e :
    send_json ws h payload = Some e →
    is_permanent_error e = false →
    retry_cycle ws payload h 1 [EvSendJson payload (Some e)] true
| cycle_retry h n e evs failed :
    send_json ws h payload = Some e →
    is_permanent_error e = false →
    retry_cycle ws payload
      (h ++ [EvSendJson payload (Some e); EvSleep (1 # 2)%Q]) (S n) evs failed →
    retry_cycle ws payload h (S (S n))
      (EvSendJson payload (Some e) :: EvSleep (1 # 2)%Q :: evs) failed.

(** Sample sockets used to run the model. *)

(** Every send fails with starlette's "not connected" error. *)
Definition closed_socket : WebSocket :=
  {| send_json := λ _ _,
       Some (Exception ("WebSocket is not connected. Need to call " +:+ dquote
                        +:+ "accept" +:+ dquote +:+ " first."));
     client_state := λ _, Some DISCONNECTED |}.

(** Every send fails with an error that names no connection state. *)
Definition congested_socket : WebSocket :=
  {| send_json := λ _ _, Some (Exception "send buffer full");
     client_state := λ _, Some CONNECTED |}.

(** The first send fails with such an error, the later ones go out. *)
Definition recovering_socket : WebSocket :=
  {| send_json := λ h _,
       match socket_sends h with
       | [] => Some (Exception "send buffer full")
       | _ => None
       end;
     client_state := λ _, Some CONNECTED |}.

(** A reporter just built on the socket [ws]. *)
Definition fresh_reporter (ws : WebSocket) : St :=
  {| logger := LoggerManager_init (Some ws); history := [] |}.

(** ** [api.py]: the existence probe *)

(** [await client.collections.exists(name)] *)
Definition store_exists (client : Client) (name : string) : M St bool :=
  h ← get_history;
  let r := collections_exists client h name in
  emit (EvExists name r);;
  lift_result r.

(** [await asyncio.wait_for(document_collection.query.bm25(...), timeout=30.0)],
    giving [response.objects] *)
Definition store_bm25 (client : Client) (query : string) (limit : Z)
  : M St (list Doc) :=
  h ← get_history;
  let r := query_bm25 client h query limit in
  emit (EvBm25 query limit r);;
  lift_result r.

(** [await document_collection.query.fetch_objects(filters=..., limit=...)],
    giving [fallback_response.objects] *)
Definition store_fetch_objects (client : Client) (title_eq : string) (limit : Z)
  : M St (list Doc) :=
  h ← get_history;
  let r := query_fetch_objects client h title_eq limit in
  emit (EvFetch title_eq limit r);;
  lift_result r.

(** [doc.properties.get("title") == fileConfig.filename] *)
Definition title_matches (fileConfig : FileConfig) (doc : Doc) : bool :=
  bool_decide (title doc = Some (filename fileConfig)).

(** The recurring tail of an attempt (lines 247-250 and the like):
    pause and [continue] unless this is the last attempt, else
    [return False]. *)
Definition miss (attempt max_retries : Z) (pause : Q) : M St (option bool) :=
  if (attempt <? max_retries - 1)%Z then
    sleep pause;;
    mret None
  else mret (Some false).

(** One turn of the loop of lines 211-294: [Some b] stands for
    [return b], [None] for [continue]. *)
Definition probe_attempt (client : Client) (fileConfig : FileConfig)
    (max_retries attempt : Z) : M St (option bool) :=
  try_except
    (let document_collection_name := "VERBA_DOCUMENTS" in
     present ← store_exists client document_collection_name;
     if negb present then miss attempt max_retries 1%Q
     else
       try_except_if is_TimeoutError
         (objects ← store_bm25 client (filename fileConfig) 5;
          if negb (bool_decide (objects = [])) then
            found ← for_each objects (λ doc,
              if title_matches fileConfig doc then mret (Some true)
              else mret None);
            match found with
            | Some b => mret (Some b)
            | None => miss attempt max_retries 2%Q
            end
          else miss attempt max_retries 2%Q)
         (λ _,
            objects ← store_fetch_objects client (filename fileConfig) 1;
            if negb (bool_decide (objects = [])) then mret (Some true)
            else miss attempt max_retries 2%Q))
    (λ e, miss attempt max_retries 2%Q).

Definition check_document_in_weaviate_with_retry (client : Client)
    (fileConfig : FileConfig) (max_retries : Z) : M St bool :=
  r ← for_each (range max_retries) (probe_attempt client fileConfig max_retries);
  match r with
  | Some b => mret b
  | None => mret false
  end.

(** The candidates a stretch of history shows the store to have returned. *)
Definition returned (ev : event) : list Doc :=
  match ev with
  | EvBm25 _ _ (Ok objs) | EvFetch _ _ (Ok objs) => objs
  | _ => []
  end.

Definition candidates (evs : trace) : list Doc := flat_map returned evs.

Definition is_exists_call (ev : event) : bool :=
  match ev with EvExists _ _ => true | _ => false end.

(** The attempts of the probe that a history holds: each attempt opens
    with one call of [collections.exists]. *)
Definition probe_attempts (evs : trace) : nat :=
  length (List.filter is_exists_call evs).

(** The objects a ranked search returned (line 232). *)
Definition ranked_answer (ev : event) : list Doc :=
  match ev with
  | EvBm25 _ _ (Ok objs) => objs
  | _ => []
  end.

Definition ranked_candidates (evs : trace) : list Doc :=
  flat_map ranked_answer evs.

(** The objects a fallback query returned (line 264). *)
Definition fallback_answer (ev : event) : list Doc :=
  match ev with
  | EvFetch _ _ (Ok objs) => objs
  | _ => []
  end.

Definition fallback_candidates (evs : trace) : list Doc :=
  flat_map fallback_answer evs.

(** The status report a history shows last. *)
Definition last_report (h : trace) : option StatusReport :=
  fold_left (λ acc ev, match ev with EvReport r => Some r | _ => acc end) h None.

(** What the reporter does on the wire: attempts and pauses. *)
Definition is_transport (ev : event) : bool :=
  match ev with EvSendJson _ _ | EvSleep _ => true | _ => false end.

(** The two tests of the probe on what a stretch of history returned:
    a ranked candidate whose title is the file name (lines 240-242), or a
    fallback answer that is not empty (lines 272-275). *)
Definition counts_as_found (fileConfig : FileConfig) (evs : trace) : bool :=
  existsb (title_matches fileConfig) (ranked_candidates evs)
  || negb (bool_decide (fallback_candidates evs = [])).

(** A sample store: the collection exists, the ranked search returns
    [ranked] whatever the query, and the equality filter returns one object
    carrying the title asked for. *)
Definition sample_store (ranked : list Doc) : Client :=
  {| collections_exists := λ _ _, Ok true;
     query_bm25 := λ _ _ _, Ok ranked;
     query_fetch_objects := λ _ v _, Ok [{| uuid := "u-0"; title := Some v |}] |}.

Definition idle_state : St :=
  {| logger := LoggerManager_init None; history := [] |}.

(** ** [api.py]: the import reconciler *)

Section Reconciler.

(** [manager.import_document(client, fileConfig, logger, credentials)]:
    outside the sources. It holds the logger, so it may use and change
    it, and it may raise. *)
Variable import_document : Client → FileConfig → option Credentials → M St unit.

(** [client_manager.connect(credentials)] *)
Variable connect : trace → Credentials → result Client.

(** [time.time()] *)
Variable clock : trace → Q.

Definition time_time : M St Q := λ s, (s, Ok (clock (history s))).

Definition client_manager_connect (creds : Credentials) : M St Client :=
  h ← get_history;
  let r := connect h creds in
  emit (EvConnect (match r with Ok _ => None | Raise e => Some e end));;
  lift_result r.

(** Lines 311-356: run the importer, settle, probe. Yields
    [(import_error, total_time, document_exists)]. *)
Definition import_and_verify (client : Client) (fileConfig : FileConfig)
    (credentials : option Credentials) : M St (option exn * Q * bool) :=
  start_time ← time_time;
  let stored_credentials := credentials in
  import_error ←
    try_except
      (import_document client fileConfig stored_credentials;;
       emit (EvImportReturned None);;
       mret None)
      (λ e, emit (EvImportReturned (Some e));; mret (Some e));
  now ← time_time;
  let total_time := (now - start_time)%Q in
  sleep 2%Q;;
  document_exists ←
    try_except
      (match stored_credentials with
       | Some creds =>
           verification_client ← client_manager_connect creds;
           check_document_in_weaviate_with_retry verification_client fileConfig 3
       | None =>
           check_document_in_weaviate_with_retry client fileConfig 3
       end)
      (λ verification_error,
         try_except
           (check_document_in_weaviate_with_retry client fileConfig 3)
           (λ fallback_error, mret false));
  mret (import_error, total_time, document_exists).

Definition not_found_message : string :=
  "Document not found in Weaviate after import (verification failed)".

Definition not_found_exception : exn :=
  Exception "Document not found in Weaviate after import".

(** Lines 358-396: report the disposition, then raise on failure. *)
Definition report_outcome (fileConfig : FileConfig)
    (import_error : option exn) (total_time : Q) (document_exists : bool)
  : M St unit :=
  if document_exists then
    try_except
      (send_report (fc_fileID fileConfig) DONE
         ("Import for " +:+ filename fileConfig +:+ " completed successfully")
         total_time)
      (λ report_error, mret tt)
  else
    let error_message :=
      match import_error with
      | Some e => "Import failed: " +:+ str_exn e
      | None => not_found_message
      end in
    try_except
      (send_report (fc_fileID fileConfig) ERROR error_message total_time)
      (λ report_error, mret tt);;
    match import_error with
    | Some e => raise e
    | None => raise not_found_exception
    end.

Definition resilient_import_document (client : Client) (fileConfig : FileConfig)
    (credentials : option Credentials) : M St unit :=
  '(import_error, total_time, document_exists) ←
    import_and_verify client fileConfig credentials;
  report_outcome fileConfig import_error total_time document_exists.

End Reconciler.

(** The error the reconciler raises, and the message it reports, when the
    probe did not find the document (lines 373-377 and 393-396). *)
Definition chosen_error (import_error : option exn) : exn :=
  match import_error with
  | Some e => e
  | None => not_found_exception
  end.

Definition chosen_message (import_error : option exn) : string :=
  match import_error with
  | Some e => "Import failed: " +:+ str_exn e
  | None => not_found_message
  end.

(** ** Further runs of the assembler *)

(** Feeding the assembler one payload after the other: the table at the
    end and what each call of [add_batch] returned. *)
Fixpoint run_batches (model_validate_json : string → result FileConfig)
    (payloads : list DataBatchPayload) (bm : BatchManager)
  : BatchManager * list (result (option FileConfig)) :=
  match payloads with
  | [] => (bm, [])
  | p :: rest =>
      let '(bm1, r) := add_batch model_validate_json p bm in
      let '(bm2, rs) := run_batches model_validate_json rest bm1 in
      (bm2, r :: rs)
  end.

(** Piece [i] of an upload cut into [n] pieces. *)
Definition piece (id : string) (n : nat) (final : bool)
    (creds : option Credentials) (i : nat) (text : string) : DataBatchPayload :=
  {| chunk := text;
     isLastChunk := final && bool_decide (S i = n);
     total := Z.of_nat n;
     fileID := id;
     order := Z.of_nat i;
     credentials := creds |}.

(** An upload sent in order: the pieces numbered from 0, each declaring
    the whole count; [final] says whether the last one carries the flag. *)
Definition upload (id : string) (texts : list string) (final : bool)
    (creds : option Credentials) : list DataBatchPayload :=
  imap (piece id (length texts) final creds) texts.

(** The chunks of a session that received [texts] in order. *)
Definition chunks_in_order (texts : list string) : dict string :=
  imap (λ i t, (Z.of_nat i, t)) texts.

(** A socket that takes every payload. *)
Definition open_socket : WebSocket :=
  {| send_json := λ _ _, None;
     client_state := λ _, Some CONNECTED |}.

(** ** [api.py]: the probe's wrapper and the shape of its runs *)

(** Lines 300-302, kept for backward compatibility. *)
Definition check_document_in_weaviate (client : Client) (fileConfig : FileConfig)
  : M St bool :=
  check_document_in_weaviate_with_retry client fileConfig 3.

(** How one attempt of the probe ends: on a hit, or on a miss that calls
    for a pause of so many seconds before the next attempt. *)
Inductive attempt_outcome : Type := Hit | Miss (pause : Q).

(** The store calls of one attempt that starts at history [h], read off
    lines 213-294 branch by branch, and how the attempt ends. *)
Inductive attempt_events (client : Client) (fileConfig : FileConfig) (h : trace)
  : list event → attempt_outcome → Prop :=
| attempt_exists_raises e :
    collections_exists client h "VERBA_DOCUMENTS" = Raise e →
    attempt_events client fileConfig h
      [EvExists "VERBA_DOCUMENTS" (Raise e)] (Miss 2)
| attempt_no_collection :
    collections_exists client h "VERBA_DOCUMENTS" = Ok false →
    attempt_events client fileConfig h
      [EvExists "VERBA_DOCUMENTS" (Ok false)] (Miss 1)
| attempt_ranked objs :
    collections_exists client h "VERBA_DOCUMENTS" = Ok true →
    query_bm25 client (h ++ [EvExists "VERBA_DOCUMENTS" (Ok true)])
      (filename fileConfig) 5 = Ok objs →
    attempt_events client fileConfig h
      [EvExists "VERBA_DOCUMENTS" (Ok true);
       EvBm25 (filename fileConfig) 5 (Ok objs)]
      (if existsb (title_matches fileConfig) objs then Hit else Miss 2)
| attempt_ranked_raises e :
    collections_exists client h "VERBA_DOCUMENTS" = Ok true →
    query_bm25 client (h ++ [EvExists "VERBA_DOCUMENTS" (Ok true)])
      (filename fileConfig) 5 = Raise e →
    is_TimeoutError e = false →
    attempt_events client fileConfig h
      [EvExists "VERBA_DOCUMENTS" (Ok true);
       EvBm25 (filename fileConfig) 5 (Raise e)]
      (Miss 2)
| attempt_fallback e r :
    collections_exists client h "VERBA_DOCUMENTS" = Ok true →
    query_bm25 client (h ++ [EvExists "VERBA_DOCUMENTS" (Ok true)])
      (filename fileConfig) 5 = Raise e →
    is_TimeoutError e = true →
    query_fetch_objects client
      (h ++ [EvExists "VERBA_DOCUMENTS" (Ok true);
             EvBm25 (filename fileConfig) 5 (Raise e)])
      (filename fileConfig) 1 = r →
    attempt_events client fileConfig h
      [EvExists "VERBA_DOCUMENTS" (Ok true);
       EvBm25 (filename fileConfig) 5 (Raise e);
       EvFetch (filename fileConfig) 1 r]
      (match r with
       | Ok (_ :: _) => Hit
       | _ => Miss 2
       end).

(** The events of a whole run of the probe with [n] attempts left, and its
    answer: a hit ends the run; a miss is followed by its pause and the
    next attempt, unless it was the last one. *)
Inductive probe_events (client : Client) (fileConfig : FileConfig)
  : nat → trace → list event → bool → Prop :=
| probe_no_attempt h :
    probe_events client fileConfig 0 h [] false
| probe_hit n h evs :
    attempt_events client fileConfig h evs Hit →
    probe_events client fileConfig (S n) h evs true
| probe_last_miss h evs q :
    attempt_events client fileConfig h evs (Miss q) →
    probe_events client fileConfig 1 h evs false
| probe_retry n h evs q evs' b :
    attempt_events client fileConfig h evs (Miss q) →
    probe_events client fileConfig (S n) (h ++ evs ++ [EvSleep q]) evs' b →
    probe_events client fileConfig (S (S n)) h (evs ++ EvSleep q :: evs') b.

Definition is_fetch (ev : event) : bool :=
  match ev with EvFetch _ _ _ => true | _ => false end.

(** The fallback queries that a history holds. *)
Definition fallback_queries (evs : trace) : nat :=
  length (List.filter is_fetch evs).

(** The fallback query of position [i] comes right after a ranked search
    that timed out. *)
Definition after_timeout (fileConfig : FileConfig) (evs : list event) (i : nat)
  : Prop :=
  ∃ j m, i = S j ∧
         evs !! j = Some (EvBm25 (filename fileConfig) 5 (Raise (TimeoutError m))).

(** [n] attempts that each find the collection missing, a second apart. *)
Fixpoint missing_collection_events (n : nat) : list event :=
  match n with
  | O => []
  | S O => [EvExists "VERBA_DOCUMENTS" (Ok false)]
  | S n' =>
      EvExists "VERBA_DOCUMENTS" (Ok false) :: EvSleep 1 ::
      missing_collection_events n'
  end.

(** ** [api.py]: the handler of [/ws/import_files] *)

(** What [await websocket.receive_text()] gives: a frame, or the
    [WebSocketDisconnect] of a client that went away, or another error. *)
Inductive received : Type :=
| Received (data : string)
| Disconnected
| ReceiveFailed (e : exn).

(** How one turn of the [while True] loop ends. *)
Inductive loop_step : Type := Continue | Break.

(** The objects of one connection: its [BatchManager], and its
    [LoggerManager] with the history. *)
Record Handler : Type := { batcher : BatchManager; world : St }.

Definition on_batcher {A} (c : M BatchManager A) : M Handler A := λ hs,
  let '(b, r) := c (batcher hs) in
  ({| batcher := b; world := world hs |}, r).

Definition on_world {A} (c : M St A) : M Handler A := λ hs,
  let '(w, r) := c (world hs) in
  ({| batcher := batcher hs; world := w |}, r).

(** The phrases of lines 491-496. *)
Definition closed_connection_phrases : list string :=
  [ "need to call " +:+ dquote +:+ "accept" +:+ dquote +:+ " first";
    "websocket is not connected";
    "cannot call " +:+ dquote +:+ "send" +:+ dquote
      +:+ " once a close message has been sent";
    "websocket connection is closed" ].

Definition is_closed_connection_error (e : exn) : bool :=
  let error_str := lower (str_exn e) in
  existsb (λ phrase, str_in phrase error_str) closed_connection_phrases.

Section ImportFiles.

(** [DataBatchPayload.model_validate_json] *)
Variable parse_payload : string → result DataBatchPayload.

(** [FileConfig.model_validate_json] *)
Variable model_validate_json : string → result FileConfig.

Variable import_document : Client → FileConfig → option Credentials → M St unit.

(** [client_manager.connect], given whatever the payload carries. *)
Variable connect_any : trace → option Credentials → result Client.

Variable clock : trace → Q.

(** Line 464: [client = await client_manager.connect(batch_data.credentials)] *)
Definition connect_for_import (creds : option Credentials) : M St Client :=
  h ← get_history;
  let r := connect_any h creds in
  emit (EvConnect (match r with Ok _ => None | Raise e => Some e end));;
  lift_result r.

(** Lines 488-503: the last [except] clause of the loop. *)
Definition on_loop_error (e : exn) : M Handler loop_step :=
  if is_closed_connection_error e then mret Break else mret Continue.

(** Lines 456-483: what is done with one frame. *)
Definition handle_frame (data : string) : M Handler unit :=
  batch_data ← lift_result (parse_payload data);
  fileConfig ← on_batcher (add_batch model_validate_json batch_data);
  match fileConfig with
  | None => mret tt
  | Some fileConfig =>
      client ← on_world (connect_for_import (credentials batch_data));
      try_except
        (on_world
           (resilient_import_document import_document
              (λ h creds, connect_any h (Some creds)) clock
              client fileConfig (credentials batch_data)))
        (λ e,
           try_except
             (on_world
                (send_report (fc_fileID fileConfig) ERROR
                   ("Resilient import failed: " +:+ str_exn e) 0%Q))
             (λ report_error, mret tt))
  end.

(** Lines 454-503: one turn of the loop. *)
Definition import_files_step (frame : received) : M Handler loop_step :=
  match frame with
  | Disconnected => mret Break
  | ReceiveFailed e => on_loop_error e
  | Received data =>
      try_except (handle_frame data;; mret Continue) on_loop_error
  end.

(** The first turns of the loop, on the frames that have arrived so far.
    The [while True] of line 453 has no exit of its own: [Break] says that
    the loop was left (lines 487 and 499), [Continue] that every one of
    these turns ended in [continue] and the loop is back at
    [receive_text], waiting for the next frame. *)
Fixpoint import_files_loop (frames : list received) : M Handler loop_step :=
  match frames with
  | [] => mret Continue
  | frame :: rest =>
      step ← import_files_step frame;
      match step with
      | Break => mret Break
      | Continue => import_files_loop rest
      end
  end.

(** Lines 435-451 and the loop: nothing is done in "Demo" mode or when
    [accept] fails; otherwise a logger and an assembler are made for the
    connection and the loop runs. [None]: the handler returned at once;
    otherwise, where the loop stands after [frames]. *)
Definition websocket_import_files (production : string)
    (accept : option exn) (websocket : WebSocket) (frames : list received)
    (h : trace) : option (Handler * result loop_step) :=
  if bool_decide (production = "Demo") then None
  else match accept with
       | Some _ => None
       | None =>
           Some (import_files_loop frames
                   {| batcher := BatchManager_init;
                      world := {| logger := LoggerManager_init (Some websocket);
                                  history := h |} |})
       end.

End ImportFiles.

(** ** [api.py]: the same-origin middleware *)

(** [s.rstrip(c)] for a single character [c]: every trailing [c] goes. *)
Fixpoint rstrip (c : ascii) (s : string) : string :=
  match s with
  | EmptyString => EmptyString
  | String a rest =>
      match rstrip c rest with
      | EmptyString => if Ascii.eqb a c then EmptyString else String a EmptyString
      | r => String a r
      end
  end.

(** [s.endswith(c)] for a single character [c]. *)
Fixpoint ends_with (c : ascii) (s : string) : bool :=
  match s with
  | EmptyString => false
  | String a EmptyString => Ascii.eqb a c
  | String _ rest => ends_with c rest
  end.

(** What the middleware reads of a request. *)
Record Request : Type := {
  url_path : string;                (* request.url.path *)
  origin : option string;           (* request.headers.get("origin") *)
  base_url : string;                (* str(request.base_url) *)
  base_url_hostname : option string (* request.base_url.hostname *)
}.

(** What the middleware answers: the request goes on to its route, or a
    403 is returned whose details name the two origins (the other details
    echo the request). *)
Inductive middleware_response : Type :=
| CallNext
| Forbidden (request_origin : option string) (expected_origin : string).

(** Lines 92-96: the test on the [Origin] header. *)
Definition origin_accepted (request : Request) : bool :=
  bool_decide (origin request = Some (rstrip "/" (base_url request)))
  || match origin request with
     | Some o =>
         negb (bool_decide (o = ""))
         && String.prefix "http://localhost:" o
         && bool_decide (base_url_hostname request = Some "localhost")
     | None => false
     end.

(** Lines 86-118. *)
Definition check_same_origin (request : Request) : middleware_response :=
  if bool_decide (url_path request = "/api/health") then CallNext
  else if origin_accepted request then CallNext
  else if String.prefix "/api/" (url_path request)
       then Forbidden (origin request) (base_url request)
       else CallNext.

Definition forwarded (r : middleware_response) : bool :=
  match r with CallNext => true | Forbidden _ _ => false end.

(** ** Further readings of a history *)

(** The pauses a stretch of history holds, in seconds. *)
Definition pauses (evs : trace) : list Q :=
  omap (λ ev, match ev with EvSleep q => Some q | _ => None end) evs.

(** The warning flag is only ever up while the reporter is marked failed. *)
Definition warned_only_when_failed (s : St) : Prop :=
  error_logged (logger s) = true → websocket_failed (logger s) = true.

(* ===================================================================== *)
(** * Part II. Properties                                                  *)
(* ===================================================================== *)

(** ** Fragment assembler ([BatchManager]) *)

Section BatchManagerFacts.

Variable parse : string → result FileConfig.

Lemma record_chunk_spec (bm : BatchManager) (p : DataBatchPayload) :
  record_chunk p bm = (<[fileID p := recorded bm p]> bm, Ok tt).
Proof.
  unfold record_chunk, recorded, mbind, M_bind, get, put, mret, M_ret.
  destruct (bm !! fileID p) as [b|] eqn:E; cbn.
  - by rewrite E.
  - rewrite lookup_insert_eq. cbn. by rewrite insert_insert_eq.
Qed.

Lemma check_batch_spec (bm : BatchManager) (k : string) (b : Batch) :
  bm !! k = Some b →
  check_batch parse k bm =
    (bm, if (count b =? b_total b)%Z
         then match parse (assembled b) with
              | Ok cfg => Ok (Some cfg)
              | Raise e => Raise e
              end
         else Ok None).
Proof.
  intros E. unfold check_batch, count, assembled, mbind, M_bind, get.
  rewrite E. destruct (_ =? _)%Z; [|done].
  unfold lift_result. by destruct (parse _).
Qed.

(** What one call of [add_batch] does, case by case. *)
Lemma add_batch_spec (bm : BatchManager) (p : DataBatchPayload) :
  add_batch parse p bm =
    let b := recorded bm p in
    if (count b =? b_total b)%Z then
      match parse (assembled b) with
      | Ok cfg => (delete (fileID p) bm, Ok (Some cfg))
      | Raise _ => (<[fileID p := b]> bm, Ok None)
      end
    else if isLastChunk p then (delete (fileID p) bm, Ok None)
    else (<[fileID p := b]> bm, Ok None).
Proof.
  unfold add_batch, try_except. cbn zeta.
  unfold mbind at 1, M_bind at 1. rewrite record_chunk_spec.
  unfold mbind at 1, M_bind at 1.
  rewrite (check_batch_spec _ _ (recorded bm p)) by apply lookup_insert_eq.
  destruct (_ =? _)%Z.
  - destruct (parse _) as [cfg|e]; [|done].
    cbn. unfold del_batch, mbind, M_bind, get, put.
    rewrite lookup_insert_eq. cbn. by rewrite delete_insert_eq.
  - cbn. destruct (isLastChunk p); [|done].
    unfold del_batch, mbind, M_bind, get, put.
    rewrite lookup_insert_eq. cbn. by rewrite delete_insert_eq.
Qed.

End BatchManagerFacts.

(** *** Strings and dictionaries *)

Lemma append_empty_r (s : string) : s +:+ "" = s.
Proof.
  induction s as [|c s IH]; [reflexivity|].
  change (String c (s +:+ "") = String c s). by rewrite IH.
Qed.


Lemma dict_get_set_eq {V} (d : dict V) (k : Z) (v : V) :
  dict_get (dict_set d k v) k = Some v.
Proof.
  induction d as [|[k' v'] d IH]; cbn.
  - by rewrite Z.eqb_refl.
  - destruct (k' =? k)%Z eqn:E; cbn; by rewrite E.
Qed.

Lemma dict_get_set_ne {V} (d : dict V) (k k' : Z) (v : V) :
  k' ≠ k → dict_get (dict_set d k v) k' = dict_get d k'.
Proof.
  intros Hne. induction d as [|[k0 v0] d IH]; cbn.
  - destruct (k =? k')%Z eqn:E; [|done]. apply Z.eqb_eq in E. congruence.
  - destruct (k0 =? k)%Z eqn:E; cbn.
    + apply Z.eqb_eq in E. subst k0.
      destruct (k =? k')%Z eqn:E'; [|done]. apply Z.eqb_eq in E'. congruence.
    + by rewrite IH.
Qed.

Lemma dict_set_keys_in {V} (d : dict V) (k : Z) (v : V) :
  k ∈ keys d → keys (dict_set d k v) = keys d.
Proof.
  unfold keys. induction d as [|[k' v'] d IH]; cbn; intros Hin.
  - by apply elem_of_nil in Hin.
  - destruct (k' =? k)%Z eqn:E; [done|]. cbn. f_equal. apply IH.
    apply elem_of_cons in Hin as [->|Hin]; [|done].
    by rewrite Z.eqb_refl in E.
Qed.

Lemma dict_set_keys_notin {V} (d : dict V) (k : Z) (v : V) :
  k ∉ keys d → keys (dict_set d k v) = keys d ++ [k].
Proof.
  unfold keys. induction d as [|[k' v'] d IH]; cbn; intros Hnin; [done|].
  apply not_elem_of_cons in Hnin as [Hne Hnin].
  destruct (k' =? k)%Z eqn:E.
  - apply Z.eqb_eq in E. congruence.
  - cbn. f_equal. by apply IH.
Qed.

Lemma dict_set_NoDup {V} (d : dict V) (k : Z) (v : V) :
  NoDup (keys d) → NoDup (keys (dict_set d k v)).
Proof.
  intros Hnd. destruct (decide (k ∈ keys d)) as [Hin|Hnin].
  - by rewrite dict_set_keys_in.
  - rewrite dict_set_keys_notin by done.
    apply NoDup_app. split_and!; [done| |apply NoDup_singleton].
    intros x Hx Hx'. apply list_elem_of_singleton in Hx'. by subst.
Qed.

(** Storing at a new key adds the value after all the others. *)
Lemma dict_set_values_notin {V} (d : dict V) (k : Z) (v : V) :
  k ∉ keys d → values (dict_set d k v) = values d ++ [v].
Proof.
  unfold keys, values. induction d as [|[k' v'] d IH]; cbn; intros Hnin; [done|].
  apply not_elem_of_cons in Hnin as [Hne Hnin].
  destruct (k' =? k)%Z eqn:E.
  - apply Z.eqb_eq in E. congruence.
  - cbn. f_equal. by apply IH.
Qed.

(** Storing at a key that is present rewrites that one entry where it
    stands. *)
Lemma dict_set_values_in {V} (d : dict V) (k : Z) (v : V) :
  NoDup (keys d) → k ∈ keys d →
  values (dict_set d k v) = map (λ kv, if (fst kv =? k)%Z then v else snd kv) d.
Proof.
  unfold keys, values. induction d as [|[k' v'] d IH]; cbn; intros Hnd Hin;
    [by apply elem_of_nil in Hin|].
  apply NoDup_cons in Hnd as [Hk' Hnd].
  destruct (k' =? k)%Z eqn:E; cbn.
  - apply Z.eqb_eq in E. subst k'. f_equal.
    clear IH Hin Hnd. induction d as [|[k0 v0] d IH]; cbn; [done|].
    cbn in Hk'. apply not_elem_of_cons in Hk' as [Hne Hk'].
    destruct (k0 =? k)%Z eqn:E; [apply Z.eqb_eq in E; congruence|].
    f_equal. by apply IH.
  - f_equal. apply IH; [done|].
    apply elem_of_cons in Hin as [->|Hin]; [|done].
    by rewrite Z.eqb_refl in E.
Qed.

Lemma well_formed_init : well_formed BatchManager_init.
Proof. intros k b. unfold BatchManager_init. by rewrite lookup_empty. Qed.

Lemma recorded_NoDup (bm : BatchManager) (p : DataBatchPayload) :
  well_formed bm → NoDup (keys (b_chunks (recorded bm p))).
Proof.
  intros Hwf. unfold recorded.
  destruct (bm !! fileID p) as [b|] eqn:E; cbn.
  - apply dict_set_NoDup. by eapply Hwf.
  - apply NoDup_singleton.
Qed.

Lemma well_formed_add_batch parse (bm : BatchManager) (p : DataBatchPayload) :
  well_formed bm → well_formed (fst (add_batch parse p bm)).
Proof.
  intros Hwf. rewrite add_batch_spec. cbn zeta.
  assert (Hdel : well_formed (delete (fileID p) bm)).
  { intros k b Hk. apply lookup_delete_Some in Hk as [_ Hk]. by eapply Hwf. }
  assert (Hins : well_formed (<[fileID p := recorded bm p]> bm)).
  { intros k b Hk. apply lookup_insert_Some in Hk as [[_ <-]|[_ Hk]].
    - by apply recorded_NoDup.
    - by eapply Hwf. }
  destruct (_ =? _)%Z; [destruct (parse _)|destruct (isLastChunk p)]; done.
Qed.

(** *** Claims about the assembler *)

Section AssemblerClaims.

Variable parse : string → result FileConfig.

(** C1 (defect in the code). The text handed to the parser follows the
    order in which the indices were first stored, not their ascending
    order: in a session with a declared total of 2, a fragment at index
    [i] with text [a] followed by a fragment at another index [j] with
    text [b] assembles to [a] followed by [b], whichever of [i] and [j] is
    the smaller, and the call returns whatever the parser makes of it. *)
Theorem C1_assembly_follows_arrival_order (id : string) (i j : Z) (a b : string) :
  i ≠ j →
  let bm1 := fst (add_batch parse (fragment id i a 2 false) BatchManager_init) in
  let p2 := fragment id j b 2 false in
  assembled (recorded bm1 p2) = a +:+ b ∧
  snd (add_batch parse p2 bm1) =
    match parse (a +:+ b) with
    | Ok cfg => Ok (Some cfg)
    | Raise _ => Ok None
    end.
Proof.
  intros Hij. cbn zeta.
  set (b1 := {| b_fileID := id; b_total := 2; b_chunks := [(i, a)] |}).
  assert (E1 : fst (add_batch parse (fragment id i a 2 false) BatchManager_init)
               = <[id := b1]> BatchManager_init).
  { rewrite add_batch_spec. reflexivity. }
  rewrite E1.
  assert (E2 : recorded (<[id := b1]> BatchManager_init) (fragment id j b 2 false)
               = {| b_fileID := id; b_total := 2;
                    b_chunks := [(i, a); (j, b)] |}).
  { unfold recorded. cbn [fileID fragment]. rewrite lookup_insert_eq.
    unfold set_chunks, b1. cbn.
    destruct (i =? j)%Z eqn:E; [apply Z.eqb_eq in E; congruence|done]. }
  assert (E3 : assembled {| b_fileID := id; b_total := 2;
                            b_chunks := [(i, a); (j, b)] |} = a +:+ b).
  { unfold assembled, join. cbn. by rewrite append_empty_r. }
  rewrite add_batch_spec. cbn zeta. rewrite E2, E3.
  split; [reflexivity|].
  change (count _ =? _)%Z with true. cbn match.
  by destruct (parse (a +:+ b)).
Qed.

(** C4 (amended). When a fragment arrives with [isLastChunk] set while the
    number of stored indices is still below the declared total, nothing is
    concatenated or parsed: [add_batch] returns [None] and the session is
    removed from the table. *)
Theorem C4_final_fragment_below_total_discards (bm : BatchManager)
    (p : DataBatchPayload) :
  isLastChunk p = true →
  (count (recorded bm p) < b_total (recorded bm p))%Z →
  add_batch parse p bm = (delete (fileID p) bm, Ok None).
Proof.
  intros Hlast Hlt. rewrite add_batch_spec. cbn zeta.
  destruct (_ =? _)%Z eqn:E; [apply Z.eqb_eq in E; lia|].
  by rewrite Hlast.
Qed.

(** C5 (defect in the code). When the stored indices reach the declared
    total and the parser rejects the assembled text, the session is still
    in the table after [add_batch] returns, with the chunk just stored. *)
Theorem C5_parse_failure_keeps_session (bm : BatchManager)
    (p : DataBatchPayload) (e : exn) :
  count (recorded bm p) = b_total (recorded bm p) →
  parse (assembled (recorded bm p)) = Raise e →
  fst (add_batch parse p bm) !! fileID p = Some (recorded bm p).
Proof.
  intros Hcount Hparse. rewrite add_batch_spec. cbn zeta.
  rewrite Hcount, Z.eqb_refl, Hparse. cbn. apply lookup_insert_eq.
Qed.

(** C6 (amended). When the assembled text of a session is rejected by the
    parser, [add_batch] catches the failure and returns [None], the value
    it also returns when nothing was completed, and no other session of
    the table is touched. *)
Theorem C6_parse_failure_is_swallowed (bm : BatchManager)
    (p : DataBatchPayload) (e : exn) :
  count (recorded bm p) = b_total (recorded bm p) →
  parse (assembled (recorded bm p)) = Raise e →
  snd (add_batch parse p bm) = Ok None ∧
  ∀ k, k ≠ fileID p → fst (add_batch parse p bm) !! k = bm !! k.
Proof.
  intros Hcount Hparse. rewrite add_batch_spec. cbn zeta.
  rewrite Hcount, Z.eqb_refl, Hparse. cbn. split; [done|].
  intros k Hk. by rewrite lookup_insert_ne.
Qed.

(** C9. Storing a fragment at an index the session already holds
    overwrites the text at that index and nothing else: the index reads
    back the new text, every other index reads as before, the number of
    stored indices (compared with the declared total) is unchanged, and
    the assembled text is the old one with the text of that index
    replaced, which is what [add_batch] hands to the parser. *)
Theorem C9_duplicate_index_overwrites (bm : BatchManager)
    (p : DataBatchPayload) (b : Batch) :
  bm !! fileID p = Some b →
  NoDup (keys (b_chunks b)) →
  order p ∈ keys (b_chunks b) →
  let b' := recorded bm p in
  let latest := map (λ kv, if (fst kv =? order p)%Z then chunk p else snd kv)
                    (b_chunks b) in
  fst (record_chunk p bm) !! fileID p = Some b' ∧
  dict_get (b_chunks b') (order p) = Some (chunk p) ∧
  (∀ k, k ≠ order p → dict_get (b_chunks b') k = dict_get (b_chunks b) k) ∧
  keys (b_chunks b') = keys (b_chunks b) ∧
  count b' = count b ∧
  b_total b' = b_total b ∧
  assembled b' = join latest ∧
  add_batch parse p bm =
    if (count b =? b_total b)%Z then
      match parse (join latest) with
      | Ok cfg => (delete (fileID p) bm, Ok (Some cfg))
      | Raise _ => (<[fileID p := b']> bm, Ok None)
      end
    else if isLastChunk p then (delete (fileID p) bm, Ok None)
    else (<[fileID p := b']> bm, Ok None).
Proof.
  intros Hb Hnd Hin. cbn zeta.
  assert (Hrec : recorded bm p
                 = set_chunks b (dict_set (b_chunks b) (order p) (chunk p))).
  { unfold recorded. by rewrite Hb. }
  assert (Hkeys : keys (b_chunks (recorded bm p)) = keys (b_chunks b)).
  { rewrite Hrec. cbn. by apply dict_set_keys_in. }
  assert (Hcount : count (recorded bm p) = count b).
  { unfold count. by rewrite Hkeys. }
  assert (Htotal : b_total (recorded bm p) = b_total b) by by rewrite Hrec.
  assert (Hasm : assembled (recorded bm p)
                 = join (map (λ kv, if (fst kv =? order p)%Z then chunk p
                                    else snd kv) (b_chunks b))).
  { unfold assembled. rewrite Hrec. unfold set_chunks. cbn [b_chunks].
    by rewrite dict_set_values_in. }
  split_and!; try done.
  - rewrite record_chunk_spec. cbn. apply lookup_insert_eq.
  - rewrite Hrec. cbn. apply dict_get_set_eq.
  - intros k Hk. rewrite Hrec. cbn. by apply dict_get_set_ne.
  - rewrite add_batch_spec. cbn zeta. by rewrite Hcount, Htotal, Hasm.
Qed.

End AssemblerClaims.

(** Fragment (index=1, "CD") then fragment (index=0, "AB"): the parser is
    handed "CDAB". *)
Lemma C1_witness :
  let bm1 := fst (add_batch braces_parser (fragment "f1" 1 "CD" 2 false)
                    BatchManager_init) in
  let p2 := fragment "f1" 0 "AB" 2 false in
  assembled (recorded bm1 p2) = "CDAB" ∧
  snd (add_batch braces_parser p2 bm1) =
    match braces_parser "CDAB" with
    | Ok cfg => Ok (Some cfg)
    | Raise _ => Ok None
    end.
Proof.
  apply (C1_assembly_follows_arrival_order braces_parser "f1" 1 0 "CD" "AB").
  lia.
Defined.

(** The failing input of C4 as stated: the lenient parser would accept
    "AB", yet the call neither returns a descriptor nor raises. *)
Lemma C4_counterexample :
  let r := snd (add_batch lenient_parser (fragment "f1" 0 "AB" 2 true)
                  BatchManager_init) in
  ¬ ((∃ cfg, lenient_parser "AB" = Ok cfg ∧ r = Ok (Some cfg)) ∨
     (∃ e, r = Raise e)).
Proof.
  cbn zeta. rewrite add_batch_spec. cbn.
  intros [(cfg & _ & H)|(e & H)]; discriminate H.
Qed.

Lemma C4_witness :
  add_batch lenient_parser (fragment "f1" 0 "AB" 2 true) BatchManager_init
  = (delete "f1" BatchManager_init, Ok None).
Proof.
  apply (C4_final_fragment_below_total_discards lenient_parser
           BatchManager_init (fragment "f1" 0 "AB" 2 true)).
  - reflexivity.
  - vm_compute. reflexivity.
Defined.

Lemma C5_witness :
  fst (add_batch braces_parser (fragment "f1" 0 "not json" 1 true)
         BatchManager_init) !! "f1"
  = Some {| b_fileID := "f1"; b_total := 1; b_chunks := [(0%Z, "not json")] |}.
Proof.
  apply (C5_parse_failure_keeps_session braces_parser BatchManager_init
           (fragment "f1" 0 "not json" 1 true) (ValidationError "Invalid JSON")).
  - reflexivity.
  - reflexivity.
Defined.

(** The failing input of C6 as stated: the parser rejects the assembled
    text, and the caller gets [None], not an exception. *)
Lemma C6_counterexample :
  let p := fragment "f1" 0 "not json" 1 true in
  braces_parser (assembled (recorded BatchManager_init p))
    = Raise (ValidationError "Invalid JSON") ∧
  snd (add_batch braces_parser p BatchManager_init) = Ok None ∧
  ¬ (∃ e, snd (add_batch braces_parser p BatchManager_init) = Raise e).
Proof.
  cbn zeta. rewrite add_batch_spec. cbn.
  split_and!; [reflexivity|reflexivity|].
  intros [e H]. discriminate H.
Qed.

Lemma C6_witness :
  let p := fragment "f1" 0 "not json" 1 true in
  let bm := <["f2" := {| b_fileID := "f2"; b_total := 3;
                         b_chunks := [(0%Z, "{")] |}]> BatchManager_init in
  snd (add_batch braces_parser p bm) = Ok None ∧
  ∀ k, k ≠ fileID p → fst (add_batch braces_parser p bm) !! k = bm !! k.
Proof.
  cbn zeta.
  apply (C6_parse_failure_is_swallowed braces_parser _
           (fragment "f1" 0 "not json" 1 true) (ValidationError "Invalid JSON")).
  - reflexivity.
  - reflexivity.
Defined.

Lemma C9_witness :
  let b := {| b_fileID := "f1"; b_total := 2;
              b_chunks := [(0%Z, "{old"); (1%Z, "}")] |} in
  let p := fragment "f1" 0 "{new" 2 false in
  add_batch braces_parser p (<["f1" := b]> BatchManager_init)
  = (delete "f1" (<["f1" := b]> BatchManager_init),
     Ok (Some {| fc_fileID := "f1"; filename := "{new}" |})).
Proof.
  cbn zeta.
  pose proof (C9_duplicate_index_overwrites braces_parser
                (<["f1" := {| b_fileID := "f1"; b_total := 2;
                              b_chunks := [(0%Z, "{old"); (1%Z, "}")] |}]>
                   BatchManager_init)
                (fragment "f1" 0 "{new" 2 false)
                {| b_fileID := "f1"; b_total := 2;
                   b_chunks := [(0%Z, "{old"); (1%Z, "}")] |}) as H.
  cbn zeta in H.
  destruct H as (_ & _ & _ & _ & _ & _ & _ & H).
  - reflexivity.
  - cbn. apply NoDup_cons. split; [|apply NoDup_singleton].
    intros Hin. apply list_elem_of_singleton in Hin. discriminate Hin.
  - cbn. apply elem_of_cons. by left.
  - exact H.
Defined.

(** ** Transport reporter ([LoggerManager]) *)

Arguments is_permanent_error : simpl never.

Lemma for_each_cons {S A I} (x : I) (xs : list I) (body : I → M S (option A)) (s : S) :
  for_each (x :: xs) body s =
    match body x s with
    | (s1, Ok (Some a)) => (s1, Ok (Some a))
    | (s1, Ok None) => for_each xs body s1
    | (s1, Raise e) => (s1, Raise e)
    end.
Proof.
  cbn. unfold mbind, M_bind. destruct (body x s) as [s1 [[a|]|e]]; reflexivity.
Qed.

(** A loop whose body never raises never raises. *)
Lemma for_each_never_raises {S A I} (xs : list I) (body : I → M S (option A)) :
  (∀ x s, ∃ s' r, body x s = (s', Ok r)) →
  ∀ s, ∃ s' r, for_each xs body s = (s', Ok r).
Proof.
  intros Hbody. induction xs as [|x xs IH]; intros s.
  - by exists s, None.
  - rewrite for_each_cons. destruct (Hbody x s) as (s1 & [a|] & ->); eauto.
Qed.

Section ReporterFacts.

Variables (file_Id : string) (status : FileStatus) (message : string) (took : Q).

Let payload := status_payload file_Id status message took.
Let report := {| sr_fileID := file_Id; sr_status := status;
                 sr_message := message; sr_took := took |}.

Lemma send_attempt_spec (s : St) (ws : WebSocket) (attempt : Z) :
  socket (logger s) = Some ws →
  ∃ s' r,
    send_attempt file_Id status message took attempt s = (s', Ok r) ∧
    socket (logger s') = Some ws ∧
    max_retries (logger s') = max_retries (logger s) ∧
    match send_json ws (history s) payload with
    | None =>
        r = Some tt ∧
        history s' = history s ++ [EvSendJson payload None] ∧
        websocket_failed (logger s') = websocket_failed (logger s)
    | Some e =>
        if is_permanent_error e then
          r = Some tt ∧
          history s' = history s ++ [EvSendJson payload (Some e)] ∧
          websocket_failed (logger s') = true
        else if (attempt <? max_retries (logger s) - 1)%Z then
          r = None ∧
          history s' = history s ++ [EvSendJson payload (Some e); EvSleep (1 # 2)%Q] ∧
          websocket_failed (logger s') = websocket_failed (logger s)
        else
          r = Some tt ∧
          history s' = history s ++ [EvSendJson payload (Some e)] ∧
          websocket_failed (logger s') = true
    end.
Proof.
  destruct s as [[sock wf rc mr el] h]. cbn. intros ->.
  unfold send_attempt, try_except, socket_send_json, log_permanent_failure_once,
    sleep, mbind, M_bind, get_self, get_history, emit, raise, mret, M_ret,
    set_websocket_failed, set_error_logged.
  cbn. fold payload.
  destruct (send_json ws h payload) as [e|] eqn:E; cbn.
  - destruct (is_permanent_error e); cbn.
    + destruct el; cbn; eauto 10.
    + destruct (attempt <? mr - 1)%Z; cbn.
      * rewrite <- app_assoc. cbn. eauto 10.
      * destruct el; cbn; eauto 10.
  - eauto 10.
Qed.

(** Whatever the state, one attempt never raises. *)
Lemma send_attempt_never_raises (attempt : Z) (s : St) :
  ∃ s' r, send_attempt file_Id status message took attempt s = (s', Ok r).
Proof.
  destruct (socket (logger s)) as [ws|] eqn:Hs.
  - destruct (send_attempt_spec s ws attempt Hs) as (s' & r & H & _). eauto.
  - destruct s as [[sock wf rc mr el] h]. cbn in Hs. subst sock.
    unfold send_attempt, try_except, socket_send_json, log_permanent_failure_once,
      sleep, mbind, M_bind, get_self, get_history, emit, raise, mret, M_ret,
      set_websocket_failed, set_error_logged.
    cbn.
    destruct (is_permanent_error _); cbn.
    + destruct el; cbn; eauto.
    + destruct (attempt <? mr - 1)%Z; cbn; [eauto|].
      destruct el; cbn; eauto.
Qed.

Lemma send_loop_spec (ws : WebSocket) (m : Z) (n : nat) :
  ∀ (a : nat) (s : St),
    socket (logger s) = Some ws →
    max_retries (logger s) = m →
    (Z.of_nat a + Z.of_nat n = m)%Z →
    (0 < n)%nat →
    ∃ s' evs failed,
      for_each (map Z.of_nat (seq a n))
               (send_attempt file_Id status message took) s
        = (s', Ok (Some tt)) ∧
      history s' = history s ++ evs ∧
      retry_cycle ws payload (history s) n evs failed ∧
      socket (logger s') = Some ws ∧
      max_retries (logger s') = m ∧
      websocket_failed (logger s') = failed || websocket_failed (logger s).
Proof.
  induction n as [|n IH]; intros a s Hsock Hmax Hsum Hpos; [lia|].
  cbn [seq map]. rewrite for_each_cons.
  destruct (send_attempt_spec s ws (Z.of_nat a) Hsock)
    as (s1 & r & -> & Hsock1 & Hmax1 & Hcase).
  destruct (send_json ws (history s) payload) as [e|] eqn:Hsend.
  - destruct (is_permanent_error e) eqn:Hperm.
    + destruct Hcase as (-> & Hh & Hf).
      exists s1, [EvSendJson payload (Some e)], true.
      split_and!; try done; [by constructor|congruence].
    + rewrite Hmax in Hcase.
      destruct (Z.of_nat a <? m - 1)%Z eqn:Hlt.
      * destruct Hcase as (-> & Hh & Hf).
        apply Z.ltb_lt in Hlt.
        destruct (IH (S a) s1) as (s2 & evs & failed & Hrun & Hh2 & Hcyc & Hs2 & Hm2 & Hf2);
          [done|congruence|lia|lia|].
        exists s2, (EvSendJson payload (Some e) :: EvSleep (1 # 2)%Q :: evs), failed.
        split_and!; try done.
        -- rewrite Hh2, Hh, <- app_assoc. reflexivity.
        -- destruct n as [|n']; [lia|]. constructor; try done. by rewrite <- Hh.
        -- by rewrite Hf2, Hf.
      * destruct Hcase as (-> & Hh & Hf).
        apply Z.ltb_ge in Hlt.
        assert (n = 0)%nat as -> by lia.
        exists s1, [EvSendJson payload (Some e)], true.
        split_and!; try done; [by constructor|congruence].
  - destruct Hcase as (-> & Hh & Hf).
    exists s1, [EvSendJson payload None], false.
    split_and!; try done; [by constructor|congruence].
Qed.

(** One run of [_try_send_with_retry] on a reporter built by [__init__]. *)
Lemma try_send_with_retry_spec (s : St) (ws : WebSocket) :
  socket (logger s) = Some ws →
  max_retries (logger s) = 3%Z →
  ∃ s' evs failed,
    _try_send_with_retry file_Id status message took s = (s', Ok tt) ∧
    history s' = history s ++ evs ∧
    retry_cycle ws payload (history s) 3 evs failed ∧
    socket (logger s') = Some ws ∧
    max_retries (logger s') = 3%Z ∧
    websocket_failed (logger s') = failed || websocket_failed (logger s).
Proof.
  intros Hsock Hmax.
  destruct (send_loop_spec ws 3 3 0 s) as (s' & evs & failed & Hrun & H);
    [done|done|lia|lia|].
  exists s', evs, failed. split; [|done].
  unfold _try_send_with_retry, mbind, M_bind, get_self. rewrite Hmax.
  change (range 3) with (map Z.of_nat (seq 0 3)). by rewrite Hrun.
Qed.

Lemma try_send_with_retry_never_raises (s : St) :
  ∃ s', _try_send_with_retry file_Id status message took s = (s', Ok tt).
Proof.
  unfold _try_send_with_retry, mbind, M_bind, get_self.
  destruct (for_each_never_raises (range (max_retries (logger s)))
              (send_attempt file_Id status message took)
              send_attempt_never_raises s) as (s' & r & ->).
  by exists s'.
Qed.

Lemma send_attempt_preserves (attempt : Z) (s : St) :
  socket (logger (fst (send_attempt file_Id status message took attempt s)))
    = socket (logger s) ∧
  max_retries (logger (fst (send_attempt file_Id status message took attempt s)))
    = max_retries (logger s).
Proof.
  destruct s as [[[ws|] wf rc mr el] h];
    unfold send_attempt, try_except, socket_send_json, log_permanent_failure_once,
      sleep, mbind, M_bind, get_self, get_history, emit, raise, mret, M_ret,
      set_websocket_failed, set_error_logged; cbn.
  - destruct (send_json ws h _) as [e|]; cbn; [|done].
    destruct (is_permanent_error e); cbn.
    + by destruct el.
    + destruct (attempt <? mr - 1)%Z; cbn; [done|]. by destruct el.
  - destruct (is_permanent_error _); cbn.
    + by destruct el.
    + destruct (attempt <? mr - 1)%Z; cbn; [done|]. by destruct el.
Qed.

Lemma send_loop_preserves (xs : list Z) (s : St) :
  let s' := fst (for_each xs (send_attempt file_Id status message took) s) in
  socket (logger s') = socket (logger s) ∧
  max_retries (logger s') = max_retries (logger s).
Proof.
  cbn zeta. revert s. induction xs as [|x xs IH]; intros s; [done|].
  rewrite for_each_cons.
  destruct (send_attempt_preserves x s) as (H1 & H2).
  destruct (send_attempt file_Id status message took x s) as [s1 [[a|]|e]];
    cbn in *; try done.
  destruct (IH s1) as [H3 H4]. split; congruence.
Qed.

Lemma try_send_with_retry_preserves (s : St) :
  let s' := fst (_try_send_with_retry file_Id status message took s) in
  socket (logger s') = socket (logger s) ∧
  max_retries (logger s') = max_retries (logger s).
Proof.
  cbn zeta. unfold _try_send_with_retry, mbind, M_bind, get_self.
  pose proof (send_loop_preserves (range (max_retries (logger s))) s) as H.
  cbn zeta in H.
  by destruct (for_each _ _ s) as [s1 [r|e]].
Qed.

(** [send_report], with its two conditionals spelled out. *)
Lemma send_report_unfold (s : St) :
  send_report file_Id status message took s =
    let s1 := fst (emit (EvReport report) s) in
    let s2 := if is_terminal status && websocket_failed (logger s)
              then fst (set_error_logged false (fst (set_websocket_failed false s1)))
              else s1 in
    if bool_decide (socket (logger s2) ≠ None) && negb (websocket_failed (logger s2))
    then _try_send_with_retry file_Id status message took s2
    else (s2, Ok tt).
Proof.
  destruct s as [[sock wf rc mr el] h].
  unfold send_report, mbind, M_bind, get_self, emit, set_websocket_failed,
    set_error_logged, mret, M_ret.
  cbn. destruct (is_terminal status), wf; cbn;
    by destruct (bool_decide (sock ≠ None)).
Qed.

Lemma send_report_never_raises (s : St) :
  ∃ s', send_report file_Id status message took s = (s', Ok tt).
Proof.
  rewrite send_report_unfold. cbn zeta.
  destruct (_ && negb _); [apply try_send_with_retry_never_raises|eauto].
Qed.

Lemma send_report_preserves (s : St) :
  let s' := fst (send_report file_Id status message took s) in
  socket (logger s') = socket (logger s) ∧
  max_retries (logger s') = max_retries (logger s) ∧
  (socket (logger s) = None → websocket_failed (logger s') = true →
   websocket_failed (logger s) = true).
Proof.
  cbn zeta. rewrite send_report_unfold. cbn zeta.
  set (s2 := if is_terminal status && _ then _ else _).
  assert (Hs2 : socket (logger s2) = socket (logger s) ∧
                max_retries (logger s2) = max_retries (logger s) ∧
                (websocket_failed (logger s2) = true →
                 websocket_failed (logger s) = true)).
  { unfold s2. destruct s as [[sock wf rc mr el] h]. cbn.
    by destruct (is_terminal status), wf. }
  destruct Hs2 as (Hsock & Hmax & Hfail).
  destruct (bool_decide (socket (logger s2) ≠ None)) eqn:Hdec; cbn [andb].
  - apply bool_decide_eq_true in Hdec.
    destruct (negb _); cbn [fst].
    + destruct (try_send_with_retry_preserves s2) as [H1 H2].
      split_and!; congruence.
    + split_and!; auto.
  - cbn [fst]. split_and!; auto.
Qed.

(** A cycle makes at least one attempt and no more than it is allowed. *)
Lemma retry_cycle_sends (ws : WebSocket) (p : Payload) (h : trace) (n : nat)
    (evs : list event) (failed : bool) :
  retry_cycle ws p h n evs failed →
  (1 ≤ length (socket_sends evs) ≤ n)%nat.
Proof.
  unfold socket_sends. induction 1; cbn in *; lia.
Qed.

Lemma send_report_nonterminal_when_failed (s : St) :
  websocket_failed (logger s) = true →
  is_terminal status = false →
  send_report file_Id status message took s
    = ({| logger := logger s; history := history s ++ [EvReport report] |},
       Ok tt).
Proof.
  intros Hfailed Hterm. rewrite send_report_unfold. cbn zeta.
  rewrite Hfailed, Hterm. cbn [andb emit fst logger]. rewrite Hfailed.
  cbn [negb]. by rewrite andb_false_r.
Qed.

Lemma send_report_terminal_when_failed (s : St) (ws : WebSocket) :
  socket (logger s) = Some ws →
  max_retries (logger s) = 3%Z →
  websocket_failed (logger s) = true →
  is_terminal status = true →
  let s0 := fst (set_error_logged false
                   (fst (set_websocket_failed false
                           (fst (emit (EvReport report) s))))) in
  websocket_failed (logger s0) = false ∧
  send_report file_Id status message took s
    = _try_send_with_retry file_Id status message took s0 ∧
  ∃ s' evs failed,
    send_report file_Id status message took s = (s', Ok tt) ∧
    history s' = history s ++ EvReport report :: evs ∧
    retry_cycle ws payload (history s ++ [EvReport report]) 3 evs failed ∧
    (1 ≤ length (socket_sends evs) ≤ 3)%nat ∧
    websocket_failed (logger s') = failed.
Proof.
  intros Hsock Hmax Hfailed Hterm. rewrite send_report_unfold. cbn zeta.
  rewrite Hfailed, Hterm. cbn [andb].
  set (s0 := fst (set_error_logged false _)).
  assert (Hs0 : socket (logger s0) = Some ws ∧ max_retries (logger s0) = 3%Z ∧
                websocket_failed (logger s0) = false ∧
                history s0 = history s ++ [EvReport report]).
  { unfold s0. destruct s as [[sock wf rc mr el] h]. cbn in *. by subst. }
  destruct Hs0 as (Hsock0 & Hmax0 & Hfailed0 & Hh0).
  rewrite Hsock0, Hfailed0. cbn [negb andb].
  rewrite bool_decide_eq_true_2 by done.
  split_and!; [done|done|].
  destruct (try_send_with_retry_spec s0 ws Hsock0 Hmax0)
    as (s' & evs & failed & Hrun & Hh & Hcyc & _ & _ & Hf).
  pose proof (retry_cycle_sends _ _ _ _ _ _ Hcyc) as Hn.
  rewrite Hh0 in Hcyc.
  exists s', evs, failed.
  split; [done|]. split; [by rewrite Hh, Hh0, <- app_assoc|].
  split; [done|]. split; [done|].
  by rewrite Hf, Hfailed0, orb_false_r.
Qed.

(** A report that is not dropped: on a reporter with a socket and the
    bound 3, when the reporter is healthy or the report is DONE or ERROR,
    the report is followed by exactly one retry cycle from the healthy
    state. *)
Lemma send_report_cycle (s : St) (ws : WebSocket) :
  socket (logger s) = Some ws →
  max_retries (logger s) = 3%Z →
  websocket_failed (logger s) = false ∨ is_terminal status = true →
  ∃ s' evs failed,
    send_report file_Id status message took s = (s', Ok tt) ∧
    history s' = history s ++ EvReport report :: evs ∧
    retry_cycle ws payload (history s ++ [EvReport report]) 3 evs failed ∧
    (1 ≤ length (socket_sends evs) ≤ 3)%nat ∧
    websocket_failed (logger s') = failed.
Proof.
  intros Hsock Hmax Hgo. rewrite send_report_unfold. cbn zeta.
  set (s2 := if is_terminal status && _ then _ else _).
  assert (Hs2 : socket (logger s2) = Some ws ∧ max_retries (logger s2) = 3%Z ∧
                websocket_failed (logger s2) = false ∧
                history s2 = history s ++ [EvReport report]).
  { unfold s2. destruct s as [[sock wf rc mr el] h]. cbn in *. subst.
    destruct Hgo as [->| ->]; [by rewrite andb_false_r|by destruct wf]. }
  destruct Hs2 as (Hsock2 & Hmax2 & Hfailed2 & Hh2).
  rewrite Hsock2, Hfailed2. cbn [negb andb].
  rewrite bool_decide_eq_true_2 by done. cbn [andb].
  destruct (try_send_with_retry_spec s2 ws Hsock2 Hmax2)
    as (s' & evs & failed & Hrun & Hh & Hcyc & _ & _ & Hf).
  pose proof (retry_cycle_sends _ _ _ _ _ _ Hcyc) as Hn.
  rewrite Hh2 in Hcyc.
  exists s', evs, failed.
  split; [done|]. split; [by rewrite Hh, Hh2, <- app_assoc|].
  split; [done|]. split; [done|].
  by rewrite Hf, Hfailed2, orb_false_r.
Qed.

End ReporterFacts.

(** *** Heartbeats and the other calls *)

Lemma is_websocket_connected_pure (s : St) :
  ∃ b, _is_websocket_connected s = (s, Ok b).
Proof.
  unfold _is_websocket_connected, try_except, mbind, M_bind, get_self,
    get_history, mret, M_ret.
  destruct (socket (logger s)) as [ws|]; [|eauto].
  destruct (client_state ws (history s)); eauto.
Qed.

Lemma send_heartbeat_when_failed (file_Id message : string) (s : St) :
  websocket_failed (logger s) = true →
  send_heartbeat file_Id message s = (s, Ok tt).
Proof.
  intros Hfailed. unfold send_heartbeat, mbind, M_bind, get_self.
  rewrite Hfailed. cbn [negb]. by rewrite andb_false_r.
Qed.

Lemma create_new_document_when_failed (a b c : string) (s : St) :
  websocket_failed (logger s) = true →
  create_new_document a b c s = (s, Ok tt).
Proof.
  intros Hfailed. unfold create_new_document, mbind, M_bind, get_self.
  rewrite Hfailed. cbn [negb]. by rewrite andb_false_r.
Qed.

(** A heartbeat that fails on the socket: one attempt, then the mark. *)
Lemma send_heartbeat_failure (file_Id message : string) (s : St)
    (ws : WebSocket) (e : exn) :
  socket (logger s) = Some ws →
  websocket_failed (logger s) = false →
  snd (_is_websocket_connected s) = Ok true →
  send_json ws (history s) (status_payload file_Id PROCESSING message 0%Q) = Some e →
  send_heartbeat file_Id message s
    = (fst (set_websocket_failed true
              (fst (emit (EvSendJson (status_payload file_Id PROCESSING message 0%Q)
                            (Some e)) s))),
       Ok tt).
Proof.
  intros Hsock Hfailed Hconn Hsend.
  destruct (is_websocket_connected_pure s) as [b Hb].
  rewrite Hb in Hconn. cbn in Hconn. injection Hconn as ->.
  unfold send_heartbeat. unfold mbind at 1, M_bind at 1, get_self at 1.
  rewrite Hsock, Hfailed. cbn [negb andb].
  rewrite bool_decide_eq_true_2 by done. cbn [andb].
  unfold mbind at 1, M_bind at 1. rewrite Hb.
  unfold try_except, socket_send_json, mbind, M_bind, get_self, get_history.
  rewrite Hsock, Hsend. reflexivity.
Qed.

Lemma send_heartbeat_preserves (file_Id message : string) (s : St) :
  let s' := fst (send_heartbeat file_Id message s) in
  socket (logger s') = socket (logger s) ∧
  max_retries (logger s') = max_retries (logger s) ∧
  (socket (logger s) = None → websocket_failed (logger s') = true →
   websocket_failed (logger s) = true).
Proof.
  destruct s as [[[ws|] wf rc mr el] h]; [|by destruct wf].
  unfold send_heartbeat, _is_websocket_connected, try_except, socket_send_json,
    mbind, M_bind, get_self, get_history, emit, raise, mret, M_ret,
    set_websocket_failed.
  cbn. destruct wf; cbn; [done|].
  destruct (client_state ws h) as [st|]; cbn.
  - destruct (bool_decide (st = CONNECTED)); cbn; [|done].
    by destruct (send_json ws h _).
  - by destruct (send_json ws h _).
Qed.

Lemma create_new_document_preserves (a b c : string) (s : St) :
  let s' := fst (create_new_document a b c s) in
  socket (logger s') = socket (logger s) ∧
  max_retries (logger s') = max_retries (logger s) ∧
  (socket (logger s) = None → websocket_failed (logger s') = true →
   websocket_failed (logger s) = true).
Proof.
  destruct s as [[[ws|] wf rc mr el] h]; [|by destruct wf].
  unfold create_new_document, try_except, socket_send_json,
    log_permanent_failure_once, mbind, M_bind, get_self, get_history, emit,
    raise, mret, M_ret, set_websocket_failed, set_error_logged.
  cbn. destruct wf; cbn; [done|].
  destruct (send_json ws h _); cbn; [|done].
  by destruct el.
Qed.

Lemma run_call_preserves (c : call) (s : St) :
  let s' := fst (run_call c s) in
  socket (logger s') = socket (logger s) ∧
  max_retries (logger s') = max_retries (logger s) ∧
  (socket (logger s) = None → websocket_failed (logger s') = true →
   websocket_failed (logger s) = true).
Proof.
  destruct c; cbn [run_call].
  - apply send_report_preserves.
  - apply send_heartbeat_preserves.
  - apply create_new_document_preserves.
Qed.

(** A reporter keeps the bound 3 of [__init__], and is only ever marked
    failed when it has a socket. *)
Lemma reachable_invariant (s : St) :
  reachable s →
  max_retries (logger s) = 3%Z ∧
  (websocket_failed (logger s) = true → socket (logger s) ≠ None).
Proof.
  induction 1 as [sock h|s c _ [IHmax IHsock]|s h _ IH]; cbn.
  - split; [done|]. intros H. discriminate H.
  - destruct (run_call_preserves c s) as (Hsock & Hmax & Hnone).
    split; [congruence|]. intros Hfailed. rewrite Hsock.
    intros Hs. apply IHsock; [|done]. by apply Hnone.
  - done.
Qed.

Lemma socket_sends_app (h1 h2 : trace) :
  socket_sends (h1 ++ h2) = socket_sends h1 ++ socket_sends h2.
Proof. apply List.filter_app. Qed.

(** On a failed reporter a call other than a DONE or ERROR report changes
    nothing of the reporter and sends nothing. *)
Lemma run_nonterminal_when_failed (c : call) (s : St) :
  is_nonterminal_call c = true →
  websocket_failed (logger s) = true →
  logger (fst (run_call c s)) = logger s ∧
  socket_sends (history (fst (run_call c s))) = socket_sends (history s).
Proof.
  intros Hc Hfailed. destruct c as [f st m t|f m|a b d]; cbn [run_call].
  - cbn in Hc. apply negb_true_iff in Hc.
    rewrite send_report_nonterminal_when_failed by done. cbn.
    by rewrite socket_sends_app, app_nil_r.
  - by rewrite send_heartbeat_when_failed.
  - by rewrite create_new_document_when_failed.
Qed.

Lemma run_nonterminal_calls_when_failed (cs : list call) (s : St) :
  forallb is_nonterminal_call cs = true →
  websocket_failed (logger s) = true →
  logger (run_calls cs s) = logger s ∧
  socket_sends (history (run_calls cs s)) = socket_sends (history s).
Proof.
  revert s. induction cs as [|c cs IH]; intros s Hcs Hfailed; [done|].
  cbn in Hcs. apply andb_true_iff in Hcs as [Hc Hcs].
  destruct (run_nonterminal_when_failed c s Hc Hfailed) as [Hl Hh].
  cbn [run_calls fold_left]. fold (run_calls cs (fst (run_call c s))).
  destruct (IH (fst (run_call c s)) Hcs) as [Hl' Hh']; [by rewrite Hl|].
  split; congruence.
Qed.

(** With three attempts allowed, a cycle is one of six runs. *)
Lemma retry_cycle_three (ws : WebSocket) (p : Payload) (h : trace)
    (evs : list event) (failed : bool) :
  retry_cycle ws p h 3 evs failed →
  let attempt := EvSendJson p in
  let pause := EvSleep (1 # 2)%Q in
  (evs = [attempt None] ∧ failed = false) ∨
  (∃ e, is_permanent_error e = true ∧
        evs = [attempt (Some e)] ∧ failed = true) ∨
  (∃ e1, is_permanent_error e1 = false ∧
         evs = [attempt (Some e1); pause; attempt None] ∧ failed = false) ∨
  (∃ e1 e2, is_permanent_error e1 = false ∧ is_permanent_error e2 = true ∧
            evs = [attempt (Some e1); pause; attempt (Some e2)] ∧ failed = true) ∨
  (∃ e1 e2, is_permanent_error e1 = false ∧ is_permanent_error e2 = false ∧
            evs = [attempt (Some e1); pause; attempt (Some e2); pause; attempt None] ∧
            failed = false) ∨
  (∃ e1 e2 e3, is_permanent_error e1 = false ∧ is_permanent_error e2 = false ∧
               evs = [attempt (Some e1); pause; attempt (Some e2); pause;
                      attempt (Some e3)] ∧
               failed = true).
Proof.
  cbn zeta. intros H3.
  inversion H3 as [| |?|? ? e1 evs1 ? ? Hp1 H2]; subst; eauto 10.
  inversion H2 as [| |?|? ? e2 evs2 ? ? Hp2 H1]; subst; eauto 10.
  inversion H1 as [| |?|]; subst; eauto 15.
Qed.

Section ReporterClaims.

Variables (file_Id : string) (status : FileStatus) (message : string) (took : Q).

Let payload := status_payload file_Id status message took.
Let report := {| sr_fileID := file_Id; sr_status := status;
                 sr_message := message; sr_took := took |}.

(** C7. A reporter that is marked failed has a socket. On it a PROCESSING
    report is dropped: nothing is sent and the reporter stays as it is. A
    DONE or ERROR report clears the mark once and runs exactly one retry
    cycle of at most three attempts from the healthy state; whether the
    reporter is failed afterwards is what that one cycle ended with. *)
Theorem C7_failed_reporter_drops_progress_and_retries_terminal (s : St) :
  reachable s →
  websocket_failed (logger s) = true →
  ∃ ws,
    socket (logger s) = Some ws ∧
    (is_terminal status = false →
     send_report file_Id status message took s
       = ({| logger := logger s; history := history s ++ [EvReport report] |},
          Ok tt)) ∧
    (is_terminal status = true →
     let s0 := fst (set_error_logged false
                      (fst (set_websocket_failed false
                              (fst (emit (EvReport report) s))))) in
     websocket_failed (logger s0) = false ∧
     send_report file_Id status message took s
       = _try_send_with_retry file_Id status message took s0 ∧
     ∃ s' evs failed,
       send_report file_Id status message took s = (s', Ok tt) ∧
       history s' = history s ++ EvReport report :: evs ∧
       retry_cycle ws payload (history s ++ [EvReport report]) 3 evs failed ∧
       (1 ≤ length (socket_sends evs) ≤ 3)%nat ∧
       websocket_failed (logger s') = failed).
Proof.
  intros Hreach Hfailed.
  destruct (reachable_invariant s Hreach) as [Hmax Hsock].
  destruct (socket (logger s)) as [ws|] eqn:Hws; [|by destruct (Hsock Hfailed)].
  exists ws. split; [done|]. split; intros Hterm.
  - by apply send_report_nonterminal_when_failed.
  - by apply send_report_terminal_when_failed.
Qed.

(** C8. Sending a report never raises, whatever the state of the reporter
    and whatever the socket does. On a reporter with a socket, a report
    that is not dropped follows the retry policy, and so does every run of
    [_try_send_with_retry]: a failure carrying an irrecoverable signature
    marks the reporter failed at once, with no further attempt; any other
    failure is retried after a pause of 0.5 seconds, up to three attempts
    in all, and the third failure marks the reporter failed. *)
Theorem C8_send_never_raises_and_follows_retry_policy (s : St) :
  (∃ s', send_report file_Id status message took s = (s', Ok tt)) ∧
  (∃ s', _try_send_with_retry file_Id status message took s = (s', Ok tt)) ∧
  (reachable s →
   ∀ ws, socket (logger s) = Some ws →
     (∃ s' evs failed,
        _try_send_with_retry file_Id status message took s = (s', Ok tt) ∧
        history s' = history s ++ evs ∧
        retry_cycle ws payload (history s) 3 evs failed ∧
        (1 ≤ length (socket_sends evs) ≤ 3)%nat ∧
        websocket_failed (logger s') = failed || websocket_failed (logger s)) ∧
     (websocket_failed (logger s) = false →
      ∃ s' evs failed,
        send_report file_Id status message took s = (s', Ok tt) ∧
        history s' = history s ++ EvReport report :: evs ∧
        retry_cycle ws payload (history s ++ [EvReport report]) 3 evs failed ∧
        (1 ≤ length (socket_sends evs) ≤ 3)%nat ∧
        websocket_failed (logger s') = failed)).
Proof.
  split; [apply send_report_never_raises|].
  split; [apply try_send_with_retry_never_raises|].
  intros Hreach ws Hsock.
  destruct (reachable_invariant s Hreach) as [Hmax _].
  split.
  - destruct (try_send_with_retry_spec file_Id status message took s ws Hsock Hmax)
      as (s' & evs & failed & Hrun & Hh & Hcyc & _ & _ & Hf).
    pose proof (retry_cycle_sends _ _ _ _ _ _ Hcyc) as Hn.
    by exists s', evs, failed.
  - intros Hhealthy. apply send_report_cycle; auto.
Qed.

End ReporterClaims.

(** C10. A heartbeat whose single send fails, for whatever reason, marks
    the reporter failed there and then: one attempt, no pause, no retry.
    From then on every call other than a DONE or ERROR report leaves the
    mark in place and sends nothing; the next DONE or ERROR report clears
    the mark and runs one retry cycle. *)
Theorem C10_heartbeat_failure_marks_failed_without_retry
    (file_Id message : string) (s : St) (ws : WebSocket) (e : exn) :
  reachable s →
  socket (logger s) = Some ws →
  websocket_failed (logger s) = false →
  snd (_is_websocket_connected s) = Ok true →
  send_json ws (history s) (status_payload file_Id PROCESSING message 0%Q) = Some e →
  let heartbeat := status_payload file_Id PROCESSING message 0%Q in
  let s1 := fst (send_heartbeat file_Id message s) in
  snd (send_heartbeat file_Id message s) = Ok tt ∧
  history s1 = history s ++ [EvSendJson heartbeat (Some e)] ∧
  websocket_failed (logger s1) = true ∧
  ∀ cs, forallb is_nonterminal_call cs = true →
    let s2 := run_calls cs s1 in
    websocket_failed (logger s2) = true ∧
    socket_sends (history s2) = socket_sends (history s1) ∧
    ∀ f st m t, is_terminal st = true →
      ∃ s3 evs failed,
        send_report f st m t s2 = (s3, Ok tt) ∧
        history s3
          = history s2
              ++ EvReport {| sr_fileID := f; sr_status := st;
                             sr_message := m; sr_took := t |} :: evs ∧
        retry_cycle ws (status_payload f st m t)
          (history s2 ++ [EvReport {| sr_fileID := f; sr_status := st;
                                      sr_message := m; sr_took := t |}])
          3 evs failed ∧
        (1 ≤ length (socket_sends evs) ≤ 3)%nat ∧
        websocket_failed (logger s3) = failed.
Proof.
  intros Hreach Hsock Hfailed Hconn Hsend. cbn zeta.
  destruct (reachable_invariant s Hreach) as [Hmax _].
  rewrite (send_heartbeat_failure file_Id message s ws e) by done.
  cbn [fst snd].
  set (s1 := fst (set_websocket_failed true _)).
  assert (Hs1 : socket (logger s1) = Some ws ∧ max_retries (logger s1) = 3%Z ∧
                websocket_failed (logger s1) = true ∧
                history s1 = history s ++
                  [EvSendJson (status_payload file_Id PROCESSING message 0%Q) (Some e)]).
  { unfold s1. by destruct s as [[sock wf rc mr el] h]. }
  destruct Hs1 as (Hsock1 & Hmax1 & Hfailed1 & Hh1).
  split_and!; [done|done|done|].
  intros cs Hcs. cbn zeta.
  destruct (run_nonterminal_calls_when_failed cs s1 Hcs Hfailed1) as [Hl Hh].
  split; [by rewrite Hl|]. split; [done|].
  intros f st m t Hterm.
  destruct (send_report_terminal_when_failed f st m t (run_calls cs s1) ws)
    as (_ & _ & H); rewrite ?Hl; done.
Qed.

(** *** Runs of the reporter on sample sockets *)

Lemma C7_witness :
  let s := fst (run_call (SendHeartbeat "f1" "Processing...")
                  (fresh_reporter recovering_socket)) in
  send_report "f1" PROCESSING "Chunking" 0%Q s
    = ({| logger := logger s;
          history := history s
                       ++ [EvReport {| sr_fileID := "f1"; sr_status := PROCESSING;
                                       sr_message := "Chunking"; sr_took := 0%Q |}] |},
       Ok tt) ∧
  snd (send_report "f1" DONE "Import done" 0%Q s) = Ok tt.
Proof.
  cbn zeta.
  set (s := fst (run_call (SendHeartbeat "f1" "Processing...")
                   (fresh_reporter recovering_socket))).
  assert (Hreach : reachable s) by apply reachable_call, reachable_init.
  split.
  - destruct (C7_failed_reporter_drops_progress_and_retries_terminal
                "f1" PROCESSING "Chunking" 0%Q s Hreach)
      as (ws & _ & H & _); [reflexivity|].
    apply H. reflexivity.
  - destruct (C7_failed_reporter_drops_progress_and_retries_terminal
                "f1" DONE "Import done" 0%Q s Hreach)
      as (ws & _ & _ & H); [reflexivity|].
    destruct H as (_ & _ & s' & evs & failed & Hrun & _); [reflexivity|].
    rewrite Hrun. reflexivity.
Defined.

Lemma C8_witness :
  ∃ s' evs failed,
    send_report "f1" DONE "Import done" 0%Q (fresh_reporter congested_socket)
      = (s', Ok tt) ∧
    history s'
      = EvReport {| sr_fileID := "f1"; sr_status := DONE;
                    sr_message := "Import done"; sr_took := 0%Q |} :: evs ∧
    (1 ≤ length (socket_sends evs) ≤ 3)%nat ∧
    websocket_failed (logger s') = failed.
Proof.
  destruct (C8_send_never_raises_and_follows_retry_policy
              "f1" DONE "Import done" 0%Q (fresh_reporter congested_socket))
    as (_ & _ & H).
  destruct (H (reachable_init _ _) congested_socket) as [_ Hsend]; [reflexivity|].
  destruct Hsend as (s' & evs & failed & Hrun & Hh & _ & Hn & Hf); [reflexivity|].
  by exists s', evs, failed.
Defined.

Lemma C10_witness :
  let s1 := fst (send_heartbeat "f1" "Processing..."
                   (fresh_reporter congested_socket)) in
  snd (send_heartbeat "f1" "Processing..." (fresh_reporter congested_socket))
    = Ok tt ∧
  history s1
    = [EvSendJson (status_payload "f1" PROCESSING "Processing..." 0%Q)
         (Some (Exception "send buffer full"))] ∧
  websocket_failed (logger s1) = true.
Proof.
  cbn zeta.
  destruct (C10_heartbeat_failure_marks_failed_without_retry
              "f1" "Processing..." (fresh_reporter congested_socket)
              congested_socket (Exception "send buffer full"))
    as (H1 & H2 & H3 & _); try reflexivity.
  - apply reachable_init.
  - by split_and!.
Defined.

(** ** Existence probe *)

Section ProbeFacts.

Variables (client : Client) (fileConfig : FileConfig) (max_retries : Z).

Lemma scan_candidates (objects : list Doc) (s : St) :
  for_each objects (λ doc,
    if title_matches fileConfig doc then mret (Some true) else mret None) s
  = (s, Ok (if existsb (title_matches fileConfig) objects
            then Some true else None)).
Proof.
  induction objects as [|d ds IH]; [done|].
  rewrite for_each_cons. cbn [existsb].
  destruct (title_matches fileConfig d); cbn; [done|]. apply IH.
Qed.

Lemma miss_spec (attempt : Z) (pause : Q) (s : St) :
  miss attempt max_retries pause s =
    if (attempt <? max_retries - 1)%Z
    then ({| logger := logger s; history := history s ++ [EvSleep pause] |}, Ok None)
    else (s, Ok (Some false)).
Proof. unfold miss. by destruct (_ <? _)%Z. Qed.

Lemma counts_as_found_nil : counts_as_found fileConfig [] = false.
Proof. reflexivity. Qed.

Lemma counts_as_found_cons (ev : event) (evs : trace) :
  counts_as_found fileConfig (ev :: evs)
  = match ev with
    | EvBm25 _ _ (Ok objs) => existsb (title_matches fileConfig) objs
    | EvFetch _ _ (Ok objs) => negb (bool_decide (objs = []))
    | _ => false
    end || counts_as_found fileConfig evs.
Proof.
  unfold counts_as_found, ranked_candidates, fallback_candidates.
  cbn [flat_map]. rewrite existsb_app.
  destruct ev as [r|p o|q|n r|query l [objs|e]|t l [objs|e]|o|o];
    cbn [ranked_answer fallback_answer app existsb orb]; try done.
  - by rewrite orb_assoc.
  - destruct objs as [|d ds]; [done|].
    rewrite !(bool_decide_eq_false_2 (_ :: _ = [])) by done.
    cbn [negb orb app]. apply orb_true_r.
Qed.

Lemma counts_as_found_app (evs1 evs2 : trace) :
  counts_as_found fileConfig (evs1 ++ evs2)
  = counts_as_found fileConfig evs1 || counts_as_found fileConfig evs2.
Proof.
  induction evs1 as [|ev evs1 IH]; [done|].
  cbn [app]. by rewrite !counts_as_found_cons, IH, orb_assoc.
Qed.

Lemma counts_as_found_spec (evs : trace) (b : bool) :
  counts_as_found fileConfig evs = b →
  (b = true ↔
   (∃ d, d ∈ ranked_candidates evs ∧ title d = Some (filename fileConfig)) ∨
   fallback_candidates evs ≠ []).
Proof.
  intros <-. unfold counts_as_found.
  rewrite orb_true_iff, existsb_exists, negb_true_iff, bool_decide_eq_false.
  split; (intros [(d & Hd & Hm)|Hfb]; [left|by right]); exists d.
  - split; [by apply list_elem_of_In|]. by apply bool_decide_eq_true in Hm.
  - split; [by apply list_elem_of_In|]. by apply bool_decide_eq_true.
Qed.

Ltac probe_events :=
  cbn [app];
  rewrite ?counts_as_found_cons, ?counts_as_found_nil, ?orb_false_r;
  cbn [orb negb].

Lemma probe_attempt_spec (attempt : Z) (s : St) :
  ∃ s' r evs,
    probe_attempt client fileConfig max_retries attempt s = (s', Ok r) ∧
    logger s' = logger s ∧
    history s' = history s ++ evs ∧
    probe_attempts evs = 1%nat ∧
    ((r = Some true ∧ counts_as_found fileConfig evs = true) ∨
     (r = (if (attempt <? max_retries - 1)%Z then None else Some false) ∧
      counts_as_found fileConfig evs = false)).
Proof.
  destruct s as [lg h].
  unfold probe_attempt, try_except, try_except_if, store_exists, store_bm25,
    store_fetch_objects, lift_result, mbind, M_bind, get_history, emit.
  cbn [history logger].
  destruct (collections_exists client h "VERBA_DOCUMENTS") as [[]|e0] eqn:Hex;
    cbn [negb history logger].
  - set (h1 := h ++ [EvExists _ _]).
    destruct (query_bm25 client h1 (filename fileConfig) 5) as [objs|e1] eqn:Hbm;
      cbn [negb history logger].
    + destruct (bool_decide (objs = [])) eqn:Hnil; cbn [negb].
      * apply bool_decide_eq_true in Hnil. subst objs.
        rewrite miss_spec. cbn [history logger].
        destruct (_ <? _)%Z; eexists _, _, _;
          (split; [reflexivity|]); (split; [reflexivity|]);
          (split; [unfold h1; rewrite <- ?app_assoc; reflexivity|]);
          (split; [reflexivity|]); right; (split; reflexivity).
      * rewrite scan_candidates.
        destruct (existsb (title_matches fileConfig) objs) eqn:Hmatch.
        -- eexists _, _, _.
           (split; [reflexivity|]); (split; [reflexivity|]).
           (split; [unfold h1; cbn; rewrite <- ?app_assoc; reflexivity|]).
           (split; [reflexivity|]). left. split; [reflexivity|].
           probe_events. by rewrite Hmatch.
        -- rewrite miss_spec. cbn [history logger].
           destruct (_ <? _)%Z; eexists _, _, _;
             (split; [reflexivity|]); (split; [reflexivity|]);
             (split; [unfold h1; rewrite <- ?app_assoc; reflexivity|]);
             (split; [reflexivity|]); right; (split; [reflexivity|]);
             probe_events; by rewrite Hmatch.
    + destruct (is_TimeoutError e1) eqn:Htimeout.
      * cbn [history logger].
        set (h2 := h1 ++ [EvBm25 _ _ _]).
        destruct (query_fetch_objects client h2 (filename fileConfig) 1)
          as [objs|e2] eqn:Hfetch; cbn [negb history logger].
        -- destruct (bool_decide (objs = [])) eqn:Hnil; cbn [negb].
           ++ rewrite miss_spec. cbn [history logger].
              destruct (_ <? _)%Z; eexists _, _, _;
                (split; [reflexivity|]); (split; [reflexivity|]);
                (split; [unfold h2, h1; rewrite <- ?app_assoc; reflexivity|]);
                (split; [reflexivity|]); right; (split; [reflexivity|]);
                probe_events; by rewrite Hnil.
           ++ eexists _, _, _.
              (split; [reflexivity|]); (split; [reflexivity|]).
              (split; [unfold h2, h1; cbn; rewrite <- ?app_assoc; reflexivity|]).
              (split; [reflexivity|]). left. split; [reflexivity|].
              probe_events. by rewrite Hnil.
        -- rewrite miss_spec. cbn [history logger].
           destruct (_ <? _)%Z; eexists _, _, _;
             (split; [reflexivity|]); (split; [reflexivity|]);
             (split; [unfold h2, h1; rewrite <- ?app_assoc; reflexivity|]);
             (split; [reflexivity|]); right; (split; reflexivity).
      * rewrite miss_spec. cbn [history logger].
        destruct (_ <? _)%Z; eexists _, _, _;
          (split; [reflexivity|]); (split; [reflexivity|]);
          (split; [unfold h1; rewrite <- ?app_assoc; reflexivity|]);
          (split; [reflexivity|]); right; (split; reflexivity).
  - rewrite miss_spec. cbn [history logger].
    destruct (_ <? _)%Z; eexists _, _, _;
      (split; [reflexivity|]); (split; [reflexivity|]);
      (split; [rewrite <- ?app_assoc; reflexivity|]);
      (split; [reflexivity|]); right; (split; reflexivity).
  - rewrite miss_spec. cbn [history logger].
    destruct (_ <? _)%Z; eexists _, _, _;
      (split; [reflexivity|]); (split; [reflexivity|]);
      (split; [rewrite <- ?app_assoc; reflexivity|]);
      (split; [reflexivity|]); right; (split; reflexivity).
Qed.

Lemma probe_attempts_app (evs1 evs2 : trace) :
  probe_attempts (evs1 ++ evs2) = (probe_attempts evs1 + probe_attempts evs2)%nat.
Proof.
  unfold probe_attempts. by rewrite List.filter_app, length_app.
Qed.

Lemma probe_loop_spec (n : nat) :
  ∀ (a : nat) (s : St),
    (a + n)%nat = Z.to_nat max_retries →
    ∃ s' r evs,
      for_each (map Z.of_nat (seq a n))
               (probe_attempt client fileConfig max_retries) s = (s', Ok r) ∧
      logger s' = logger s ∧
      history s' = history s ++ evs ∧
      (probe_attempts evs ≤ n)%nat ∧
      ((r = Some true ∧ counts_as_found fileConfig evs = true) ∨
       (r = (if n is O then None else Some false) ∧
        counts_as_found fileConfig evs = false ∧
        probe_attempts evs = n)).
Proof.
  induction n as [|n IH]; intros a s Hsum.
  - exists s, None, []. rewrite app_nil_r. split_and!; try done. by right.
  - cbn [seq map]. rewrite for_each_cons.
    destruct (probe_attempt_spec (Z.of_nat a) s)
      as (s1 & r1 & evs1 & -> & Hl1 & Hh1 & Hn1 & [[-> Hm1]|[-> Hm1]]).
    + exists s1, (Some true), evs1. split_and!; try done; [lia|by left].
    + destruct (Z.of_nat a <? max_retries - 1)%Z eqn:Hlt.
      * apply Z.ltb_lt in Hlt.
        destruct (IH (S a) s1) as (s2 & r2 & evs2 & Hrun & Hl2 & Hh2 & Hn2 & Hcase);
          [lia|].
        exists s2, r2, (evs1 ++ evs2).
        rewrite counts_as_found_app, probe_attempts_app, Hm1, Hn1. cbn [orb].
        split_and!; [done|congruence|by rewrite Hh2, Hh1, app_assoc|lia|].
        destruct Hcase as [[-> Hm2]|(-> & Hm2 & Hn2')]; [by left|right].
        cbn [orb].
        destruct n as [|n']; [lia|]. split_and!; [done|done|lia].
      * apply Z.ltb_ge in Hlt. assert (n = 0)%nat as -> by lia.
        exists s1, (Some false), evs1. split_and!; try done; [lia|by right].
Qed.

Lemma probe_never_raises (s : St) :
  ∃ s' b,
    check_document_in_weaviate_with_retry client fileConfig max_retries s
      = (s', Ok b).
Proof.
  destruct (probe_loop_spec (Z.to_nat max_retries) 0 s)
    as (s' & r & evs & Hrun & _); [done|].
  unfold check_document_in_weaviate_with_retry, mbind, M_bind, range.
  rewrite Hrun. destruct r; eauto.
Qed.

(** C3 (amended). The probe never raises. It makes no more than
    [max_retries] attempts and returns [False] only once every one of them
    has been spent. It returns [True] if and only if a candidate that a
    ranked search returned carries a title equal to the file name, or a
    fallback query, issued after a ranked search timed out, returned at
    least one object; the titles of those objects are not compared. A
    ranked candidate with another title never makes it answer [True]. *)
Theorem C3_probe_true_iff_ranked_exact_or_fallback_answer (s : St) :
  ∃ s' b evs,
    check_document_in_weaviate_with_retry client fileConfig max_retries s
      = (s', Ok b) ∧
    logger s' = logger s ∧
    history s' = history s ++ evs ∧
    (probe_attempts evs ≤ Z.to_nat max_retries)%nat ∧
    (b = false → probe_attempts evs = Z.to_nat max_retries) ∧
    (b = true ↔
     (∃ d, d ∈ ranked_candidates evs ∧ title d = Some (filename fileConfig)) ∨
     fallback_candidates evs ≠ []).
Proof.
  destruct (probe_loop_spec (Z.to_nat max_retries) 0 s)
    as (s' & r & evs & Hrun & Hl & Hh & Hn & Hcase); [done|].
  unfold check_document_in_weaviate_with_retry, mbind, M_bind, range.
  rewrite Hrun.
  destruct Hcase as [[-> Hm]|(-> & Hm & Hn')].
  - exists s', true, evs. split_and!; try done.
    by apply counts_as_found_spec.
  - exists s', false, evs.
    split_and!; [by destruct (Z.to_nat max_retries)|done|done|done|done|].
    by apply counts_as_found_spec.
Qed.

End ProbeFacts.

(** The store holds "A.pdf" and "AA.pdf". Probing "AA.pdf" is answered
    [True] at the first attempt by the exact title among the ranked
    candidates; probing "AA.pdf" on a store whose ranked search returns
    only the near match "A.pdf" is answered [False] after three attempts. *)
Lemma C3_witness :
  (∃ s' evs,
     check_document_in_weaviate_with_retry
       (sample_store [{| uuid := "u-1"; title := Some "A.pdf" |};
                      {| uuid := "u-2"; title := Some "AA.pdf" |}])
       {| fc_fileID := "f1"; filename := "AA.pdf" |} 3 idle_state
     = (s', Ok true) ∧
     history s' = history idle_state ++ evs ∧
     probe_attempts evs = 1%nat ∧
     ((∃ d, d ∈ ranked_candidates evs ∧ title d = Some "AA.pdf") ∨
      fallback_candidates evs ≠ [])) ∧
  (∃ s' evs,
     check_document_in_weaviate_with_retry
       (sample_store [{| uuid := "u-1"; title := Some "A.pdf" |}])
       {| fc_fileID := "f1"; filename := "AA.pdf" |} 3 idle_state
     = (s', Ok false) ∧
     history s' = history idle_state ++ evs ∧
     probe_attempts evs = 3%nat ∧
     ranked_candidates evs ≠ [] ∧
     ¬ ((∃ d, d ∈ ranked_candidates evs ∧ title d = Some "AA.pdf") ∨
        fallback_candidates evs ≠ [])).
Proof.
  split.
  - destruct (C3_probe_true_iff_ranked_exact_or_fallback_answer
                (sample_store [{| uuid := "u-1"; title := Some "A.pdf" |};
                               {| uuid := "u-2"; title := Some "AA.pdf" |}])
                {| fc_fileID := "f1"; filename := "AA.pdf" |} 3 idle_state)
      as (s' & b & evs & Hrun & _ & Hh & _ & _ & Hiff).
    vm_compute in Hrun. injection Hrun as <- <-.
    cbn [history idle_state app] in Hh. subst evs.
    eexists _, _. split; [reflexivity|]. split; [reflexivity|].
    split; [reflexivity|]. by apply Hiff.
  - destruct (C3_probe_true_iff_ranked_exact_or_fallback_answer
                (sample_store [{| uuid := "u-1"; title := Some "A.pdf" |}])
                {| fc_fileID := "f1"; filename := "AA.pdf" |} 3 idle_state)
      as (s' & b & evs & Hrun & _ & Hh & _ & _ & Hiff).
    vm_compute in Hrun. injection Hrun as <- <-.
    cbn [history idle_state app] in Hh. subst evs.
    eexists _, _. split; [reflexivity|]. split; [reflexivity|].
    split; [reflexivity|]. split; [discriminate|].
    intros Hfound. apply Hiff in Hfound. discriminate Hfound.
Defined.

(** The original claim fails on the fallback path. The ranked search
    times out and the equality query answers with an object titled
    "a.PDF": the probe returns [True] for "A.pdf" although no candidate the
    store returned carries that title. *)
Lemma C3_counterexample :
  let client :=
    {| collections_exists := λ _ _, Ok true;
       query_bm25 := λ _ _ _, Raise (TimeoutError "");
       query_fetch_objects := λ _ _ _,
         Ok [{| uuid := "u-3"; title := Some "a.PDF" |}] |} in
  let fileConfig := {| fc_fileID := "f1"; filename := "A.pdf" |} in
  let run := check_document_in_weaviate_with_retry client fileConfig 3 idle_state in
  snd run = Ok true ∧
  candidates (history (fst run)) = [{| uuid := "u-3"; title := Some "a.PDF" |}] ∧
  ¬ (snd run = Ok true ↔
     ∃ d, d ∈ candidates (history (fst run)) ∧ title d = Some (filename fileConfig)).
Proof.
  cbn zeta. split; [reflexivity|]. split; [reflexivity|].
  intros [Hfound _]. destruct (Hfound eq_refl) as (d & Hd & Htitle).
  change (d ∈ [{| uuid := "u-3"; title := Some "a.PDF" |}]) in Hd.
  apply list_elem_of_singleton in Hd. subst d. discriminate Htitle.
Qed.

(** ** Import reconciler *)

Lemma try_except_total {S A} (c : M S A) (h : exn → M S A) :
  (∀ e s, ∃ s' a, h e s = (s', Ok a)) →
  ∀ s, ∃ s' a, try_except c h s = (s', Ok a).
Proof.
  intros Hh s. unfold try_except. destruct (c s) as [s1 [a|e]]; eauto.
Qed.

Lemma last_report_app (h evs : trace) (r : StatusReport) :
  forallb is_transport evs = true →
  last_report (h ++ EvReport r :: evs) = Some r.
Proof.
  intros Hevs. unfold last_report. rewrite fold_left_app. cbn [fold_left].
  generalize (fold_left (λ acc ev, match ev with EvReport r0 => Some r0 | _ => acc end)
                h None).
  intros _. induction evs as [|ev evs IH]; [done|].
  cbn in Hevs. apply andb_true_iff in Hevs as [Hev Hevs].
  destruct ev; try discriminate Hev; cbn [fold_left]; by apply IH.
Qed.

Section ReportHistory.

Variables (file_Id : string) (status : FileStatus) (message : string) (took : Q).

Lemma send_attempt_history (attempt : Z) (s : St) :
  ∃ evs, history (fst (send_attempt file_Id status message took attempt s))
         = history s ++ evs ∧
         forallb is_transport evs = true.
Proof.
  destruct s as [[[ws|] wf rc mr el] h];
    unfold send_attempt, try_except, socket_send_json, log_permanent_failure_once,
      sleep, mbind, M_bind, get_self, get_history, emit, raise, mret, M_ret,
      set_websocket_failed, set_error_logged; cbn.
  - destruct (send_json ws h _) as [e|]; cbn; [|by eexists [_]].
    destruct (is_permanent_error e); cbn.
    + destruct el; by eexists [_].
    + destruct (attempt <? mr - 1)%Z; cbn.
      * rewrite <- app_assoc. by eexists [_; _].
      * destruct el; by eexists [_].
  - destruct (is_permanent_error _); cbn.
    + exists []. rewrite app_nil_r. by destruct el.
    + destruct (attempt <? mr - 1)%Z; cbn; [by eexists [_]|].
      exists []. rewrite app_nil_r. by destruct el.
Qed.

Lemma send_loop_history (xs : list Z) (s : St) :
  ∃ evs, history (fst (for_each xs (send_attempt file_Id status message took) s))
         = history s ++ evs ∧
         forallb is_transport evs = true.
Proof.
  revert s. induction xs as [|x xs IH]; intros s.
  - exists []. by rewrite app_nil_r.
  - rewrite for_each_cons.
    destruct (send_attempt_history x s) as (evs1 & Hh1 & Ht1).
    destruct (send_attempt file_Id status message took x s) as [s1 [[a|]|e]];
      cbn [fst] in *; eauto.
    destruct (IH s1) as (evs2 & Hh2 & Ht2).
    exists (evs1 ++ evs2). rewrite Hh2, Hh1, app_assoc. split; [done|].
    rewrite forallb_app. by rewrite Ht1, Ht2.
Qed.

(** A report, whatever becomes of it on the wire, is written to the
    history once, followed by attempts and pauses only. *)
Lemma send_report_history (s : St) :
  ∃ s' evs,
    send_report file_Id status message took s = (s', Ok tt) ∧
    history s'
      = history s
          ++ EvReport {| sr_fileID := file_Id; sr_status := status;
                         sr_message := message; sr_took := took |} :: evs ∧
    forallb is_transport evs = true.
Proof.
  destruct (send_report_never_raises file_Id status message took s) as [s' Hrun].
  exists s'. rewrite Hrun.
  assert (Hh : ∃ evs, history (fst (send_report file_Id status message took s))
                      = history s
                          ++ EvReport {| sr_fileID := file_Id; sr_status := status;
                                         sr_message := message; sr_took := took |}
                             :: evs ∧
                      forallb is_transport evs = true).
  { rewrite send_report_unfold. cbn zeta.
    set (s2 := if is_terminal status && _ then _ else _).
    assert (Hs2 : history s2 = history s ++ [EvReport
                    {| sr_fileID := file_Id; sr_status := status;
                       sr_message := message; sr_took := took |}]).
    { unfold s2. destruct s as [[sock wf rc mr el] h]. cbn.
      by destruct (is_terminal status), wf. }
    destruct (_ && negb _); cbn [fst].
    - unfold _try_send_with_retry, mbind, M_bind, get_self.
      destruct (send_loop_history (range (max_retries (logger s2))) s2)
        as (evs & Hh & Ht).
      exists evs. split; [|done].
      destruct (for_each _ _ s2) as [s3 [r|e]]; cbn [fst] in Hh |- *;
        unfold mret, M_ret; cbn [fst];
        by rewrite Hh, Hs2, <- app_assoc.
    - exists []. by rewrite Hs2. }
  rewrite Hrun in Hh. cbn [fst] in Hh. destruct Hh as (evs & Hh & Ht).
  by exists evs.
Qed.

End ReportHistory.

Section ReconcilerFacts.

Variable import_document : Client → FileConfig → option Credentials → M St unit.
Variable connect : trace → Credentials → result Client.
Variable clock : trace → Q.

(** Lines 311-356 never raise: [import_error] is the exception of the
    importer, if it raised one, and [document_exists] is the answer of the
    probe that ran last, on the fresh connection or on the one supplied. *)
Lemma import_and_verify_spec (client : Client) (fileConfig : FileConfig)
    (credentials : option Credentials) (s : St) :
  ∃ s1 import_error total_time document_exists,
    import_and_verify import_document connect clock client fileConfig credentials s
      = (s1, Ok (import_error, total_time, document_exists)) ∧
    import_error
      = match snd (import_document client fileConfig credentials s) with
        | Ok _ => None
        | Raise e => Some e
        end ∧
    ∃ probing_client s0,
      check_document_in_weaviate_with_retry probing_client fileConfig 3 s0
        = (s1, Ok document_exists).
Proof.
  unfold import_and_verify, client_manager_connect, mbind, M_bind, time_time,
    try_except, sleep, emit, get_history, lift_result, mret, M_ret.
  destruct (import_document client fileConfig credentials s) as [s1 [[]|e]];
    cbn [history logger];
    (destruct credentials as [creds|];
     [destruct (connect _ creds) as [vc|ce]|]);
    match goal with
    | |- context [check_document_in_weaviate_with_retry ?c ?f ?m ?st] =>
        let Hp := fresh "Hp" in
        destruct (probe_never_raises c f m st) as (? & ? & Hp); rewrite Hp
    end;
    eauto 10.
Qed.

Lemma report_outcome_spec (fileConfig : FileConfig) (import_error : option exn)
    (total_time : Q) (document_exists : bool) (s : St) :
  ∃ s' evs,
    report_outcome fileConfig import_error total_time document_exists s
      = (s', if document_exists then Ok tt
             else Raise (chosen_error import_error)) ∧
    history s'
      = history s
          ++ EvReport
               {| sr_fileID := fc_fileID fileConfig;
                  sr_status := if document_exists then DONE else ERROR;
                  sr_message :=
                    if document_exists
                    then "Import for " +:+ filename fileConfig
                           +:+ " completed successfully"
                    else chosen_message import_error;
                  sr_took := total_time |} :: evs ∧
    forallb is_transport evs = true.
Proof.
  unfold report_outcome. destruct document_exists.
  - unfold try_except.
    destruct (send_report_history (fc_fileID fileConfig) DONE
                ("Import for " +:+ filename fileConfig +:+ " completed successfully")
                total_time s) as (s' & evs & -> & Hh & Ht).
    by exists s', evs.
  - unfold mbind, M_bind, try_except.
    destruct (send_report_history (fc_fileID fileConfig) ERROR
                (chosen_message import_error) total_time s)
      as (s' & evs & Hrun & Hh & Ht).
    unfold chosen_message in Hrun. rewrite Hrun.
    exists s', evs. split; [|done]. by destruct import_error.
Qed.

(** C2. Whatever the importer, the store, the socket and the clock do:
    a failure of the importer is kept aside as [import_error], the probe
    is run and its answer is [document_exists], neither raises out of the
    reconciler, and what follows is decided by that answer alone. If the probe found the
    document, the last status reported is DONE and the call returns
    without an error, even when the importer had failed. If it did not,
    the last status reported is ERROR, with the importer's error in the
    message when there was one and the not-found message otherwise; that
    report is written before the call ends, and the call then raises the
    importer's error, or the not-found error when the importer had
    succeeded. *)
Theorem C2_reconciler_decides_by_probe (client : Client) (fileConfig : FileConfig)
    (credentials : option Credentials) (s : St) :
  ∃ s1 import_error total_time document_exists s2 evs,
    import_and_verify import_document connect clock client fileConfig credentials s
      = (s1, Ok (import_error, total_time, document_exists)) ∧
    import_error
      = match snd (import_document client fileConfig credentials s) with
        | Ok _ => None
        | Raise e => Some e
        end ∧
    (∃ probing_client s0,
       check_document_in_weaviate_with_retry probing_client fileConfig 3 s0
         = (s1, Ok document_exists)) ∧
    forallb is_transport evs = true ∧
    if document_exists then
      let report := {| sr_fileID := fc_fileID fileConfig;
                       sr_status := DONE;
                       sr_message := "Import for " +:+ filename fileConfig
                                       +:+ " completed successfully";
                       sr_took := total_time |} in
      resilient_import_document import_document connect clock
        client fileConfig credentials s = (s2, Ok tt) ∧
      history s2 = history s1 ++ EvReport report :: evs ∧
      last_report (history s2) = Some report
    else
      let report := {| sr_fileID := fc_fileID fileConfig;
                       sr_status := ERROR;
                       sr_message :=
                         match import_error with
                         | Some e => "Import failed: " +:+ str_exn e
                         | None => not_found_message
                         end;
                       sr_took := total_time |} in
      resilient_import_document import_document connect clock
        client fileConfig credentials s
        = (s2, Raise (match import_error with
                      | Some e => e
                      | None => not_found_exception
                      end)) ∧
      history s2 = history s1 ++ EvReport report :: evs ∧
      last_report (history s2) = Some report.
Proof.
  destruct (import_and_verify_spec client fileConfig credentials s)
    as (s1 & import_error & total_time & document_exists & Hverify & Himport
        & Hprobe).
  destruct (report_outcome_spec fileConfig import_error total_time
              document_exists s1) as (s2 & evs & Hreport & Hh & Ht).
  exists s1, import_error, total_time, document_exists, s2, evs.
  split; [done|]. split; [done|]. split; [done|]. split; [done|].
  assert (Hrun : resilient_import_document import_document connect clock
                   client fileConfig credentials s
                 = (s2, if document_exists then Ok tt
                        else Raise (chosen_error import_error))).
  { unfold resilient_import_document, mbind, M_bind. by rewrite Hverify. }
  destruct document_exists; cbn zeta.
  - split_and!; [done|done|]. rewrite Hh. by apply last_report_app.
  - split_and!; [done|done|]. rewrite Hh. by apply last_report_app.
Qed.

End ReconcilerFacts.

(** *** Two runs of the reconciler *)

(** The importer raises, the store holds the document: DONE, no error. *)
Example importer_fails_document_found :
  let run := resilient_import_document
               (λ _ _ _, raise (Exception "connection reset"))
               (λ _ _, Raise (Exception "no route"))
               (λ h, inject_Z (Z.of_nat (length h)))
               (sample_store [{| uuid := "u-1"; title := Some "A.pdf" |}])
               {| fc_fileID := "f1"; filename := "A.pdf" |} None
               (fresh_reporter recovering_socket) in
  snd run = Ok tt ∧
  sr_status <$> last_report (history (fst run)) = Some DONE.
Proof. split; reflexivity. Qed.

(** The importer returns, the store never shows the document: ERROR with
    the not-found message, and the not-found error is raised. *)
Example importer_succeeds_document_missing :
  let run := resilient_import_document
               (λ _ _ _, mret tt)
               (λ _ _, Raise (Exception "no route"))
               (λ h, inject_Z (Z.of_nat (length h)))
               (sample_store [{| uuid := "u-1"; title := Some "A.pdf" |}])
               {| fc_fileID := "f2"; filename := "B.pdf" |} None
               (fresh_reporter closed_socket) in
  snd run = Raise not_found_exception ∧
  sr_status <$> last_report (history (fst run)) = Some ERROR ∧
  sr_message <$> last_report (history (fst run)) = Some not_found_message.
Proof. split_and!; reflexivity. Qed.


(* ===================================================================== *)
(** * Part III. Further properties of the code                             *)
(* ===================================================================== *)

(** ** The assembler beyond one call *)

Lemma dict_set_fresh {V} (d : dict V) (k : Z) (v : V) :
  k ∉ keys d → dict_set d k v = d ++ [(k, v)].
Proof.
  unfold keys. induction d as [|[k' v'] d IH]; cbn; intros Hnin; [done|].
  apply not_elem_of_cons in Hnin as [Hne Hnin].
  destruct (k' =? k)%Z eqn:E; [apply Z.eqb_eq in E; congruence|].
  f_equal. by apply IH.
Qed.

Lemma dict_set_length {V} (d : dict V) (k : Z) (v : V) :
  (length d ≤ length (dict_set d k v))%nat.
Proof.
  induction d as [|[k' v'] d IH]; cbn; [lia|].
  destruct (k' =? k)%Z; cbn; lia.
Qed.

Lemma run_batches_app parse (ps qs : list DataBatchPayload) (bm : BatchManager) :
  run_batches parse (ps ++ qs) bm =
    let '(bm1, rs1) := run_batches parse ps bm in
    let '(bm2, rs2) := run_batches parse qs bm1 in
    (bm2, rs1 ++ rs2).
Proof.
  revert bm. induction ps as [|p ps IH]; intros bm; cbn.
  - by destruct (run_batches parse qs bm).
  - destruct (add_batch parse p bm) as [bm1 r]. rewrite IH.
    destruct (run_batches parse ps bm1) as [bm2 rs].
    by destruct (run_batches parse qs bm2).
Qed.

Lemma keys_chunks_in_order (texts : list string) :
  keys (chunks_in_order texts) = Z.of_nat <$> seq 0 (length texts).
Proof.
  unfold keys, chunks_in_order.
  induction texts as [|t texts IH] using rev_ind; [done|].
  rewrite imap_app, map_app, length_app, seq_app, fmap_app. cbn.
  rewrite IH. by rewrite Nat.add_0_r.
Qed.

Lemma values_chunks_in_order (texts : list string) :
  values (chunks_in_order texts) = texts.
Proof.
  unfold values, chunks_in_order.
  induction texts as [|t texts IH] using rev_ind; [done|].
  rewrite imap_app, map_app. cbn. by rewrite IH.
Qed.

Lemma chunks_in_order_snoc (texts : list string) (t : string) :
  dict_set (chunks_in_order texts) (Z.of_nat (length texts)) t
  = chunks_in_order (texts ++ [t]).
Proof.
  rewrite dict_set_fresh.
  - unfold chunks_in_order. rewrite imap_app. cbn. by rewrite Nat.add_0_r.
  - rewrite keys_chunks_in_order. intros Hin.
    apply list_elem_of_fmap in Hin as (i & Heq & Hin).
    apply list_elem_of_In, in_seq in Hin. lia.
Qed.

(** What [recorded] is when piece number [length init] arrives after the
    pieces [init]. *)
Lemma recorded_next_piece (bm : BatchManager) (id : string) (n : nat)
    (final : bool) (creds : option Credentials) (init : list string) (t : string) :
  bm !! id = None →
  let table := match init with
               | [] => bm
               | _ => <[id := {| b_fileID := id; b_total := Z.of_nat n;
                                 b_chunks := chunks_in_order init |}]> bm
               end in
  recorded table (piece id n final creds (length init) t)
  = {| b_fileID := id; b_total := Z.of_nat n;
       b_chunks := chunks_in_order (init ++ [t]) |}.
Proof.
  intros Hfresh. cbn zeta. unfold recorded. cbn [fileID piece order chunk total].
  destruct init as [|t0 init].
  - by rewrite Hfresh.
  - rewrite lookup_insert_eq. unfold set_chunks.
    cbn [b_fileID b_total b_chunks]. by rewrite chunks_in_order_snoc.
Qed.

Section AssemblerRuns.

Variable parse : string → result FileConfig.

(** The pieces before the last one are stored and answered with [None]. *)
Lemma run_batches_prefix (bm : BatchManager) (id : string) (n : nat)
    (final : bool) (creds : option Credentials) (init : list string) :
  bm !! id = None →
  (length init < n)%nat →
  run_batches parse (imap (piece id n final creds) init) bm
  = (match init with
     | [] => bm
     | _ => <[id := {| b_fileID := id; b_total := Z.of_nat n;
                       b_chunks := chunks_in_order init |}]> bm
     end,
     replicate (length init) (Ok None)).
Proof.
  intros Hfresh. induction init as [|t init IH] using rev_ind; intros Hlen; [done|].
  rewrite length_app in Hlen. cbn in Hlen.
  rewrite imap_app, run_batches_app, IH by lia. cbn [imap run_batches].
  rewrite Nat.add_0_r, add_batch_spec. cbn zeta.
  rewrite recorded_next_piece by done.
  unfold count. cbn [b_chunks b_total].
  rewrite keys_chunks_in_order, length_fmap, length_seq, length_app. cbn [length].
  destruct (Z.of_nat _ =? Z.of_nat n)%Z eqn:E; [apply Z.eqb_eq in E; lia|].
  cbn [piece isLastChunk fileID].
  rewrite bool_decide_eq_false_2 by lia. rewrite andb_false_r.
  rewrite replicate_add. cbn [replicate]. f_equal.
  destruct (init ++ [t]) as [|] eqn:Happ; [by destruct init|].
  rewrite <- Happ. destruct init as [|t0 init']; [done|].
  by rewrite insert_insert_eq.
Qed.

(** X1. An upload whose pieces arrive in order: every call but the last
    returns [None], and the last one hands the parser the texts joined in
    that order; on success the table is back to what it was. *)
Theorem in_order_upload_is_assembled (bm : BatchManager) (id : string)
    (texts : list string) (final : bool) (creds : option Credentials) :
  bm !! id = None →
  texts ≠ [] →
  run_batches parse (upload id texts final creds) bm
  = match parse (join texts) with
    | Ok cfg =>
        (bm, replicate (length texts - 1) (Ok None) ++ [Ok (Some cfg)])
    | Raise _ =>
        (<[id := {| b_fileID := id; b_total := Z.of_nat (length texts);
                    b_chunks := chunks_in_order texts |}]> bm,
         replicate (length texts - 1) (Ok None) ++ [Ok None])
    end.
Proof.
  intros Hfresh Hne. unfold upload.
  destruct (exists_last Hne) as (init & t & ->).
  rewrite length_app. cbn [length]. rewrite Nat.add_sub.
  set (n := (length init + 1)%nat).
  rewrite imap_app, run_batches_app, run_batches_prefix by (done || lia).
  cbn [imap run_batches]. rewrite Nat.add_0_r, add_batch_spec. cbn zeta.
  rewrite recorded_next_piece by done.
  unfold count, assembled. cbn [b_chunks b_total].
  rewrite keys_chunks_in_order, values_chunks_in_order, length_fmap, length_seq,
    length_app.
  cbn [length]. fold n. rewrite Z.eqb_refl. cbn [piece fileID].
  destruct (parse (join (init ++ [t]))) as [cfg|e].
  - f_equal. destruct init; [|rewrite delete_insert_eq]; by apply delete_id.
  - f_equal. destruct init as [|t0 init']; [done|]. by rewrite insert_insert_eq.
Qed.

End AssemblerRuns.

Section AssemblerInvariants.

Variable parse : string → result FileConfig.

(** X2. One call of [add_batch] reads and writes the session of the
    payload's file id only: every other entry of the table is left as it
    was, whatever the call does. *)
Theorem add_batch_touches_one_session (bm : BatchManager)
    (p : DataBatchPayload) (k : string) :
  k ≠ fileID p →
  fst (add_batch parse p bm) !! k = bm !! k.
Proof.
  intros Hk. rewrite add_batch_spec. cbn zeta.
  destruct (_ =? _)%Z; [destruct (parse _)|destruct (isLastChunk p)]; cbn [fst];
    by rewrite ?lookup_delete_ne, ?lookup_insert_ne.
Qed.

(** X3. Whatever payloads arrive, in whatever order, no session of the
    table ever holds an index twice. *)
Theorem run_batches_well_formed (payloads : list DataBatchPayload) :
  well_formed (fst (run_batches parse payloads BatchManager_init)).
Proof.
  generalize well_formed_init. generalize BatchManager_init.
  induction payloads as [|p ps IH]; intros bm Hwf; [done|].
  cbn [run_batches].
  pose proof (well_formed_add_batch parse bm p Hwf) as Hwf1.
  destruct (add_batch parse p bm) as [bm1 r]. cbn [fst] in Hwf1.
  specialize (IH bm1 Hwf1).
  by destruct (run_batches parse ps bm1).
Qed.

(** X4. The declared total of a session is the one of its first fragment:
    on a session that exists, the [total] a later fragment carries plays
    no part in what [add_batch] does. *)
Theorem later_totals_are_ignored (bm : BatchManager) (p : DataBatchPayload)
    (b : Batch) (t : Z) :
  bm !! fileID p = Some b →
  add_batch parse
    {| chunk := chunk p; isLastChunk := isLastChunk p; total := t;
       fileID := fileID p; order := order p; credentials := credentials p |} bm
  = add_batch parse p bm.
Proof.
  intros Hb. rewrite !add_batch_spec. unfold recorded.
  cbn [fileID order chunk isLastChunk]. by rewrite Hb.
Qed.

(** X5. A session that holds more indices than its declared total never
    completes: [add_batch] returns [None], and the session is either
    removed (when the fragment is flagged last) or kept, still holding
    more indices than declared. *)
Theorem overfull_session_never_completes (bm : BatchManager)
    (p : DataBatchPayload) (b : Batch) :
  bm !! fileID p = Some b →
  (b_total b < count b)%Z →
  snd (add_batch parse p bm) = Ok None ∧
  if isLastChunk p
  then fst (add_batch parse p bm) !! fileID p = None
  else ∃ b', fst (add_batch parse p bm) !! fileID p = Some b' ∧
             b_total b' = b_total b ∧
             (b_total b' < count b')%Z.
Proof.
  intros Hb Hover. rewrite add_batch_spec. cbn zeta.
  assert (Hrec : b_total (recorded bm p) = b_total b ∧
                 (count b ≤ count (recorded bm p))%Z).
  { unfold recorded. rewrite Hb. unfold count, keys. cbn.
    rewrite !length_map. split; [done|].
    pose proof (dict_set_length (b_chunks b) (order p) (chunk p)). lia. }
  destruct Hrec as [Htotal Hcount].
  destruct (_ =? _)%Z eqn:E; [apply Z.eqb_eq in E; lia|].
  destruct (isLastChunk p); cbn [fst snd].
  - split; [done|]. apply lookup_delete_eq.
  - split; [done|]. exists (recorded bm p). rewrite lookup_insert_eq.
    split_and!; [done|done|lia].
Qed.

(** X6. A first fragment that declares a total of zero or less opens a
    session that is overfull from the start: the call returns [None], and
    unless the fragment is flagged last the session stays in the table
    with one index against that total. *)
Theorem nonpositive_total_never_completes (bm : BatchManager)
    (p : DataBatchPayload) :
  bm !! fileID p = None →
  (total p ≤ 0)%Z →
  snd (add_batch parse p bm) = Ok None ∧
  if isLastChunk p
  then fst (add_batch parse p bm) = bm
  else ∃ b', fst (add_batch parse p bm) !! fileID p = Some b' ∧
             b_total b' = total p ∧
             (b_total b' < count b')%Z.
Proof.
  intros Hfresh Htotal. rewrite add_batch_spec. cbn zeta.
  assert (Hrec : recorded bm p = {| b_fileID := fileID p; b_total := total p;
                                    b_chunks := [(order p, chunk p)] |}).
  { unfold recorded. by rewrite Hfresh. }
  rewrite Hrec. unfold count. cbn [b_chunks b_total keys map length].
  destruct (_ =? _)%Z eqn:E; [apply Z.eqb_eq in E; lia|].
  destruct (isLastChunk p); cbn [fst snd].
  - split; [done|]. by apply delete_id.
  - split; [done|]. eexists. rewrite lookup_insert_eq.
    split_and!; [done|done|]. cbn. lia.
Qed.

End AssemblerInvariants.

Lemma in_order_upload_is_assembled_witness :
  run_batches braces_parser (upload "f1" ["{"; "a"; "}"] true None)
    BatchManager_init
  = (BatchManager_init,
     [Ok None; Ok None; Ok (Some {| fc_fileID := "f1"; filename := "{a}" |})]).
Proof.
  apply (in_order_upload_is_assembled braces_parser BatchManager_init "f1"
           ["{"; "a"; "}"] true None).
  - reflexivity.
  - discriminate.
Defined.

Lemma add_batch_touches_one_session_witness :
  fst (add_batch braces_parser (fragment "f1" 0 "{}" 1 true)
         (<["f2" := {| b_fileID := "f2"; b_total := 3;
                       b_chunks := [(0%Z, "{")] |}]> BatchManager_init)) !! "f2"
  = Some {| b_fileID := "f2"; b_total := 3; b_chunks := [(0%Z, "{")] |}.
Proof.
  rewrite (add_batch_touches_one_session braces_parser _
             (fragment "f1" 0 "{}" 1 true) "f2"); [reflexivity|discriminate].
Defined.

Lemma later_totals_are_ignored_witness :
  let bm := <["f1" := {| b_fileID := "f1"; b_total := 2;
                         b_chunks := [(0%Z, "{")] |}]> BatchManager_init in
  add_batch braces_parser (fragment "f1" 1 "}" 7 false) bm
  = add_batch braces_parser (fragment "f1" 1 "}" 2 false) bm.
Proof.
  cbn zeta.
  apply (later_totals_are_ignored braces_parser _ (fragment "f1" 1 "}" 2 false)
           {| b_fileID := "f1"; b_total := 2; b_chunks := [(0%Z, "{")] |} 7).
  reflexivity.
Defined.

Lemma overfull_session_never_completes_witness :
  let bm := <["f1" := {| b_fileID := "f1"; b_total := 1;
                         b_chunks := [(0%Z, "not json"); (1%Z, "{}")] |}]>
              BatchManager_init in
  snd (add_batch braces_parser (fragment "f1" 0 "{}" 1 false) bm) = Ok None.
Proof.
  cbn zeta.
  apply (overfull_session_never_completes braces_parser _
           (fragment "f1" 0 "{}" 1 false)
           {| b_fileID := "f1"; b_total := 1;
              b_chunks := [(0%Z, "not json"); (1%Z, "{}")] |}).
  - reflexivity.
  - reflexivity.
Defined.

Lemma nonpositive_total_never_completes_witness :
  snd (add_batch lenient_parser (fragment "f1" 0 "{}" 0 false) BatchManager_init)
  = Ok None.
Proof.
  apply (nonpositive_total_never_completes lenient_parser BatchManager_init
           (fragment "f1" 0 "{}" 0 false)).
  - reflexivity.
  - cbn. lia.
Defined.

(** ** The reporter beyond one send *)

Section ReporterInvariant.

Variables (file_Id : string) (status : FileStatus) (message : string) (took : Q).

Lemma send_attempt_keeps_warned (attempt : Z) (s : St) :
  warned_only_when_failed s →
  warned_only_when_failed (fst (send_attempt file_Id status message took attempt s)).
Proof.
  unfold warned_only_when_failed.
  destruct s as [[[ws|] wf rc mr el] h];
    unfold send_attempt, try_except, socket_send_json, log_permanent_failure_once,
      sleep, mbind, M_bind, get_self, get_history, emit, raise, mret, M_ret,
      set_websocket_failed, set_error_logged; cbn.
  - destruct (send_json ws h _) as [e|]; cbn; [|done].
    destruct (is_permanent_error e); cbn.
    + by destruct el.
    + destruct (attempt <? mr - 1)%Z; cbn; [done|]. by destruct el.
  - destruct (is_permanent_error _); cbn.
    + by destruct el.
    + destruct (attempt <? mr - 1)%Z; cbn; [done|]. by destruct el.
Qed.

Lemma send_loop_keeps_warned (xs : list Z) (s : St) :
  warned_only_when_failed s →
  warned_only_when_failed
    (fst (for_each xs (send_attempt file_Id status message took) s)).
Proof.
  revert s. induction xs as [|x xs IH]; intros s Hs; [done|].
  rewrite for_each_cons.
  pose proof (send_attempt_keeps_warned x s Hs) as H1.
  destruct (send_attempt file_Id status message took x s) as [s1 [[a|]|e]];
    cbn [fst] in *; try done.
  by apply IH.
Qed.

Lemma send_report_keeps_warned (s : St) :
  warned_only_when_failed s →
  warned_only_when_failed (fst (send_report file_Id status message took s)).
Proof.
  intros Hs. rewrite send_report_unfold. cbn zeta.
  set (s2 := if is_terminal status && _ then _ else _).
  assert (Hs2 : warned_only_when_failed s2).
  { unfold s2, warned_only_when_failed in *.
    destruct s as [[sock wf rc mr el] h]. cbn in *.
    by destruct (is_terminal status), wf. }
  destruct (_ && negb _); [|done].
  unfold _try_send_with_retry, mbind, M_bind, get_self.
  pose proof (send_loop_keeps_warned (range (max_retries (logger s2))) s2 Hs2) as H.
  by destruct (for_each _ _ s2) as [s3 [r|e]].
Qed.

End ReporterInvariant.

Lemma run_call_keeps_warned (c : call) (s : St) :
  warned_only_when_failed s →
  warned_only_when_failed (fst (run_call c s)).
Proof.
  destruct c as [f st m t|f m|a b d]; cbn [run_call].
  - apply send_report_keeps_warned.
  - unfold warned_only_when_failed.
    destruct s as [[[ws|] wf rc mr el] h]; [|by destruct wf].
    unfold send_heartbeat, _is_websocket_connected, try_except, socket_send_json,
      mbind, M_bind, get_self, get_history, emit, raise, mret, M_ret,
      set_websocket_failed.
    cbn. destruct wf; cbn; [done|].
    destruct (client_state ws h) as [cs|]; cbn.
    + destruct (bool_decide (cs = CONNECTED)); cbn; [|done].
      by destruct (send_json ws h _).
    + by destruct (send_json ws h _).
  - unfold warned_only_when_failed.
    destruct s as [[[ws|] wf rc mr el] h]; [|by destruct wf].
    unfold create_new_document, try_except, socket_send_json,
      log_permanent_failure_once, mbind, M_bind, get_self, get_history, emit,
      raise, mret, M_ret, set_websocket_failed, set_error_logged.
    cbn. destruct wf; cbn; [done|].
    destruct (send_json ws h _); cbn; [|done].
    by destruct el.
Qed.

(** X7. What every reporter keeps, however it is used: the retry bound is
    the 3 of [__init__]; it is marked failed only if it has a socket; and
    its warning flag is up only while it is marked failed. *)
Theorem reporter_invariant (s : St) :
  reachable s →
  max_retries (logger s) = 3%Z ∧
  (websocket_failed (logger s) = true → socket (logger s) ≠ None) ∧
  (error_logged (logger s) = true → websocket_failed (logger s) = true).
Proof.
  intros Hreach. destruct (reachable_invariant s Hreach) as [Hmax Hsock].
  split; [done|]. split; [done|].
  clear Hmax Hsock.
  induction Hreach as [sock h|s c _ IH|s h _ IH].
  - cbn. discriminate.
  - by apply run_call_keeps_warned.
  - done.
Qed.

Lemma run_call_without_socket (c : call) (s : St) :
  socket (logger s) = None →
  websocket_failed (logger s) = false →
  logger (fst (run_call c s)) = logger s ∧
  socket_sends (history (fst (run_call c s))) = socket_sends (history s) ∧
  snd (run_call c s) = Ok tt.
Proof.
  intros Hsock Hfailed. destruct c as [f st m t|f m|a b d]; cbn [run_call].
  - rewrite send_report_unfold. cbn zeta. rewrite Hfailed, andb_false_r.
    cbn [emit fst logger]. rewrite Hsock.
    rewrite bool_decide_eq_false_2 by (intros H; by apply H).
    cbn. by rewrite socket_sends_app, app_nil_r.
  - unfold send_heartbeat, mbind, M_bind, get_self. rewrite Hsock.
    by rewrite bool_decide_eq_false_2 by (intros H; by apply H).
  - unfold create_new_document, mbind, M_bind, get_self. rewrite Hsock.
    by rewrite bool_decide_eq_false_2 by (intros H; by apply H).
Qed.

(** X8. A reporter built without a socket is a console logger only:
    whatever calls are made on it, nothing is ever sent and its fields
    never change. *)
Theorem reporter_without_socket_is_silent (s : St) (cs : list call) :
  reachable s →
  socket (logger s) = None →
  logger (run_calls cs s) = logger s ∧
  socket_sends (history (run_calls cs s)) = socket_sends (history s).
Proof.
  intros Hreach Hsock.
  assert (Hfailed : websocket_failed (logger s) = false).
  { destruct (reachable_invariant s Hreach) as [_ H].
    destruct (websocket_failed (logger s)); [|done]. by destruct H. }
  clear Hreach. revert s Hsock Hfailed.
  induction cs as [|c cs IH]; intros s Hsock Hfailed; [done|].
  destruct (run_call_without_socket c s Hsock Hfailed) as (Hl & Hh & _).
  cbn [run_calls fold_left]. fold (run_calls cs (fst (run_call c s))).
  destruct (IH (fst (run_call c s))) as [Hl' Hh']; [by rewrite Hl..|].
  split; congruence.
Qed.

Section ReporterSends.

Variables (file_Id : string) (status : FileStatus) (message : string) (took : Q).

Let payload := status_payload file_Id status message took.
Let report := {| sr_fileID := file_Id; sr_status := status;
                 sr_message := message; sr_took := took |}.

(** X9. On a healthy reporter whose socket takes the payload, a report
    costs one attempt and no pause, and leaves the reporter as it was. *)
Theorem healthy_report_is_sent_once (s : St) (ws : WebSocket) :
  reachable s →
  socket (logger s) = Some ws →
  websocket_failed (logger s) = false →
  send_json ws (history s ++ [EvReport report]) payload = None →
  send_report file_Id status message took s
  = ({| logger := logger s;
        history := history s ++ [EvReport report; EvSendJson payload None] |},
     Ok tt).
Proof.
  intros Hreach Hsock Hfailed Hsend.
  destruct (reachable_invariant s Hreach) as [Hmax _].
  destruct s as [[sock wf rc mr el] h]. cbn in Hsock, Hfailed, Hmax, Hsend.
  subst sock wf mr.
  rewrite send_report_unfold. cbn zeta. rewrite andb_false_r.
  unfold emit, _try_send_with_retry, mbind, M_bind, get_self.
  cbn [fst logger history socket websocket_failed max_retries negb andb].
  rewrite bool_decide_eq_true_2 by done. cbn [andb].
  change (range 3) with [0%Z; 1%Z; 2%Z]. rewrite for_each_cons.
  unfold send_attempt, try_except, socket_send_json, mbind, M_bind, get_self,
    get_history, emit.
  cbn [fst logger history socket]. fold payload report. rewrite Hsend.
  cbn. by rewrite <- app_assoc.
Qed.

Lemma retry_cycle_pauses (ws : WebSocket) (p : Payload) (h : trace) (n : nat)
    (evs : list event) (failed : bool) :
  retry_cycle ws p h n evs failed →
  ∃ k, (k < n)%nat ∧ pauses evs = replicate k (1 # 2)%Q.
Proof.
  induction 1 as [h n Hs|h n e Hs Hp|h e Hs Hp|h n e evs failed Hs Hp _ IH].
  - exists 0%nat. split; [lia|done].
  - exists 0%nat. split; [lia|done].
  - exists 0%nat. split; [lia|done].
  - destruct IH as (k & Hk & Hpauses). exists (S k). split; [lia|].
    unfold pauses in *. cbn. by rewrite Hpauses.
Qed.

(** X10. A report never holds its caller for long: whatever the state of
    the reporter and whatever the socket does, [send_report] makes at most
    three attempts and pauses at most twice, half a second each time. *)
Theorem send_report_waits_at_most_one_second (s : St) :
  reachable s →
  ∃ s' evs k,
    send_report file_Id status message took s = (s', Ok tt) ∧
    history s' = history s ++ EvReport report :: evs ∧
    (length (socket_sends evs) ≤ 3)%nat ∧
    (k ≤ 2)%nat ∧
    pauses evs = replicate k (1 # 2)%Q.
Proof.
  intros Hreach. destruct (reachable_invariant s Hreach) as [Hmax Hsock].
  destruct (socket (logger s)) as [ws|] eqn:Hws.
  - destruct (websocket_failed (logger s)) eqn:Hfailed.
    + destruct (is_terminal status) eqn:Hterm.
      * destruct (send_report_cycle file_Id status message took s ws)
          as (s' & evs & failed & Hrun & Hh & Hcyc & Hn & _); auto.
        destruct (retry_cycle_pauses _ _ _ _ _ _ Hcyc) as (k & Hk & Hp).
        exists s', evs, k. split_and!; try done; lia.
      * rewrite send_report_nonterminal_when_failed by done.
        eexists _, [], 0%nat. split_and!; try done; cbn; lia.
    + destruct (send_report_cycle file_Id status message took s ws)
        as (s' & evs & failed & Hrun & Hh & Hcyc & Hn & _); auto.
      destruct (retry_cycle_pauses _ _ _ _ _ _ Hcyc) as (k & Hk & Hp).
      exists s', evs, k. split_and!; try done; lia.
  - assert (Hfailed : websocket_failed (logger s) = false).
    { destruct (websocket_failed (logger s)); [|done]. by destruct Hsock. }
    rewrite send_report_unfold. cbn zeta. rewrite Hfailed, andb_false_r.
    cbn [emit fst logger]. rewrite Hws.
    rewrite bool_decide_eq_false_2 by (intros H; by apply H).
    eexists _, [], 0%nat. split_and!; try done; cbn; lia.
Qed.

End ReporterSends.

(** X11. A heartbeat is held back while the socket says it is not
    connected: nothing is sent, and the reporter is not marked failed. *)
Theorem heartbeat_waits_for_connected_socket (file_Id message : string)
    (s : St) (ws : WebSocket) (st : WebSocketState) :
  socket (logger s) = Some ws →
  client_state ws (history s) = Some st →
  st ≠ CONNECTED →
  send_heartbeat file_Id message s = (s, Ok tt).
Proof.
  intros Hsock Hstate Hne.
  destruct s as [[sock wf rc mr el] h]. cbn in Hsock, Hstate. subst sock.
  unfold send_heartbeat, _is_websocket_connected, try_except, mbind, M_bind,
    get_self, get_history, mret, M_ret.
  cbn. destruct wf; cbn; [done|].
  rewrite Hstate. cbn. by rewrite bool_decide_eq_false_2.
Qed.

(** X12. A notification of a new document that fails on the socket costs
    one attempt: the reporter is marked failed at once and its warning
    flag goes up, with no pause and no retry, and from then on every call
    other than a DONE or ERROR report sends nothing. *)
Theorem failed_notification_marks_failed (a b c : string) (s : St)
    (ws : WebSocket) (e : exn) :
  socket (logger s) = Some ws →
  websocket_failed (logger s) = false →
  send_json ws (history s)
    (NewDocumentPayload {| new_file_id := a; cnd_filename := b;
                           original_file_id := c |}) = Some e →
  let payload := NewDocumentPayload {| new_file_id := a; cnd_filename := b;
                                       original_file_id := c |} in
  let s1 := fst (create_new_document a b c s) in
  snd (create_new_document a b c s) = Ok tt ∧
  history s1 = history s ++ [EvSendJson payload (Some e)] ∧
  websocket_failed (logger s1) = true ∧
  error_logged (logger s1) = true ∧
  ∀ cs, forallb is_nonterminal_call cs = true →
    websocket_failed (logger (run_calls cs s1)) = true ∧
    socket_sends (history (run_calls cs s1)) = socket_sends (history s1).
Proof.
  intros Hsock Hfailed Hsend. cbn zeta.
  assert (Hrun : ∃ s1, create_new_document a b c s = (s1, Ok tt) ∧
                   history s1 = history s ++
                     [EvSendJson (NewDocumentPayload
                                    {| new_file_id := a; cnd_filename := b;
                                       original_file_id := c |}) (Some e)] ∧
                   websocket_failed (logger s1) = true ∧
                   error_logged (logger s1) = true).
  { destruct s as [[sock wf rc mr el] h]. cbn in *. subst sock wf.
    unfold create_new_document, try_except, socket_send_json,
      log_permanent_failure_once, mbind, M_bind, get_self, get_history, emit,
      raise, mret, M_ret, set_websocket_failed, set_error_logged.
    cbn. rewrite Hsend. cbn.
    destruct el; cbn; eauto. }
  destruct Hrun as (s1 & -> & Hh & Hf & Hel). cbn [fst snd].
  split_and!; try done.
  intros cs Hcs.
  destruct (run_nonterminal_calls_when_failed cs s1 Hcs Hf) as [Hl Hs].
  split; [by rewrite Hl|done].
Qed.

Lemma reporter_invariant_witness :
  let s := fst (run_call (SendHeartbeat "f1" "Processing...")
                  (fresh_reporter congested_socket)) in
  max_retries (logger s) = 3%Z ∧
  (websocket_failed (logger s) = true → socket (logger s) ≠ None) ∧
  (error_logged (logger s) = true → websocket_failed (logger s) = true).
Proof.
  cbn zeta. apply reporter_invariant. apply reachable_call, reachable_init.
Defined.

Lemma reporter_without_socket_is_silent_witness :
  let cs := [SendReport "f1" DONE "Import done" 0%Q;
             SendHeartbeat "f1" "Processing...";
             CreateNewDocumentCall "f2" "A.pdf" "f1"] in
  logger (run_calls cs idle_state) = logger idle_state ∧
  socket_sends (history (run_calls cs idle_state)) = socket_sends (history idle_state).
Proof.
  cbn zeta. apply reporter_without_socket_is_silent.
  - apply reachable_init.
  - reflexivity.
Defined.

Lemma healthy_report_is_sent_once_witness :
  send_report "f1" PROCESSING "Chunking" 0%Q (fresh_reporter open_socket)
  = ({| logger := logger (fresh_reporter open_socket);
        history := [EvReport {| sr_fileID := "f1"; sr_status := PROCESSING;
                                sr_message := "Chunking"; sr_took := 0%Q |};
                    EvSendJson (status_payload "f1" PROCESSING "Chunking" 0%Q)
                      None] |},
     Ok tt).
Proof.
  apply (healthy_report_is_sent_once "f1" PROCESSING "Chunking" 0%Q
           (fresh_reporter open_socket) open_socket).
  - apply reachable_init.
  - reflexivity.
  - reflexivity.
  - reflexivity.
Defined.

Lemma send_report_waits_at_most_one_second_witness :
  ∃ s' evs k,
    send_report "f1" DONE "Import done" 0%Q (fresh_reporter congested_socket)
      = (s', Ok tt) ∧
    history s'
      = history (fresh_reporter congested_socket)
          ++ EvReport {| sr_fileID := "f1"; sr_status := DONE;
                         sr_message := "Import done"; sr_took := 0%Q |} :: evs ∧
    (length (socket_sends evs) ≤ 3)%nat ∧
    (k ≤ 2)%nat ∧
    pauses evs = replicate k (1 # 2)%Q.
Proof.
  apply (send_report_waits_at_most_one_second "f1" DONE "Import done" 0%Q
           (fresh_reporter congested_socket)).
  apply reachable_init.
Defined.

Lemma heartbeat_waits_for_connected_socket_witness :
  send_heartbeat "f1" "Processing..." (fresh_reporter closed_socket)
  = (fresh_reporter closed_socket, Ok tt).
Proof.
  apply (heartbeat_waits_for_connected_socket "f1" "Processing..."
           (fresh_reporter closed_socket) closed_socket DISCONNECTED).
  - reflexivity.
  - reflexivity.
  - discriminate.
Defined.

Lemma failed_notification_marks_failed_witness :
  let s1 := fst (create_new_document "f2" "A.pdf" "f1"
                   (fresh_reporter congested_socket)) in
  websocket_failed (logger s1) = true ∧ error_logged (logger s1) = true.
Proof.
  cbn zeta.
  destruct (failed_notification_marks_failed "f2" "A.pdf" "f1"
              (fresh_reporter congested_socket) congested_socket
              (Exception "send buffer full"))
    as (_ & _ & Hf & Hel & _); try reflexivity.
  by split.
Defined.

(** ** The probe, attempt by attempt *)

Section ProbeRuns.

Variables (client : Client) (fileConfig : FileConfig) (max_retries : Z).

Lemma probe_attempt_events_spec (attempt : Z) (s : St) :
  ∃ evs o,
    attempt_events client fileConfig (history s) evs o ∧
    probe_attempt client fileConfig max_retries attempt s
    = match o with
      | Hit => ({| logger := logger s; history := history s ++ evs |},
                Ok (Some true))
      | Miss q =>
          if (attempt <? max_retries - 1)%Z
          then ({| logger := logger s;
                   history := history s ++ evs ++ [EvSleep q] |}, Ok None)
          else ({| logger := logger s; history := history s ++ evs |},
                Ok (Some false))
      end.
Proof.
  destruct s as [lg h].
  unfold probe_attempt, try_except, try_except_if, store_exists, store_bm25,
    store_fetch_objects, lift_result, mbind, M_bind, get_history, emit.
  cbn [history logger].
  destruct (collections_exists client h "VERBA_DOCUMENTS") as [[]|e0] eqn:Hex;
    cbn [negb history logger].
  - destruct (query_bm25 client (h ++ [EvExists "VERBA_DOCUMENTS" (Ok true)])
                (filename fileConfig) 5) as [objs|e1] eqn:Hbm;
      cbn [negb history logger].
    + eexists _, _. split; [by eapply attempt_ranked|].
      destruct (bool_decide (objs = [])) eqn:Hnil; cbn [negb].
      * apply bool_decide_eq_true in Hnil. subst objs. cbn [existsb].
        rewrite miss_spec. cbn [history logger].
        destruct (_ <? _)%Z; (rewrite <- ?app_assoc; reflexivity).
      * rewrite scan_candidates.
        destruct (existsb (title_matches fileConfig) objs);
          [rewrite <- ?app_assoc; reflexivity|].
        rewrite miss_spec. cbn [history logger].
        destruct (_ <? _)%Z; (rewrite <- ?app_assoc; reflexivity).
    + destruct (is_TimeoutError e1) eqn:Htimeout; cbn [history logger].
      * eexists _, _. split; [by eapply attempt_fallback|].
        destruct (query_fetch_objects client _ (filename fileConfig) 1)
          as [objs|e2] eqn:Hfetch; cbn [negb history logger].
        -- rewrite <- !app_assoc in Hfetch. cbn [app] in Hfetch.
           rewrite Hfetch.
           destruct objs as [|d ds]; cbn [negb].
           ++ rewrite bool_decide_eq_true_2 by done. cbn [negb].
              rewrite miss_spec. cbn [history logger].
              destruct (_ <? _)%Z; (rewrite <- ?app_assoc; reflexivity).
           ++ rewrite bool_decide_eq_false_2 by done. cbn [negb].
              (rewrite <- ?app_assoc; reflexivity).
        -- rewrite <- !app_assoc in Hfetch. cbn [app] in Hfetch.
           rewrite Hfetch.
           rewrite miss_spec. cbn [history logger].
           destruct (_ <? _)%Z; (rewrite <- ?app_assoc; reflexivity).
      * eexists _, _. split; [by eapply attempt_ranked_raises|].
        rewrite miss_spec. cbn [history logger].
        destruct (_ <? _)%Z; (rewrite <- ?app_assoc; reflexivity).
  - eexists _, _. split; [by eapply attempt_no_collection|].
    rewrite miss_spec. cbn [history logger].
    destruct (_ <? _)%Z; (rewrite <- ?app_assoc; reflexivity).
  - eexists _, _. split; [by eapply attempt_exists_raises|].
    rewrite miss_spec. cbn [history logger].
    destruct (_ <? _)%Z; (rewrite <- ?app_assoc; reflexivity).
Qed.

Lemma probe_loop_events (n : nat) :
  ∀ (a : nat) (s : St),
    (a + n)%nat = Z.to_nat max_retries →
    ∃ evs b,
      probe_events client fileConfig n (history s) evs b ∧
      for_each (map Z.of_nat (seq a n))
               (probe_attempt client fileConfig max_retries) s
      = ({| logger := logger s; history := history s ++ evs |},
         Ok (if n is O then None else Some b)).
Proof.
  induction n as [|n IH]; intros a s Hsum.
  - exists [], false. split; [constructor|].
    destruct s as [lg h]. cbn. by rewrite app_nil_r.
  - cbn [seq map]. rewrite for_each_cons.
    destruct (probe_attempt_events_spec (Z.of_nat a) s) as (evs & o & Hev & ->).
    destruct o as [|q].
    + exists evs, true. split; [by constructor|done].
    + destruct (Z.of_nat a <? max_retries - 1)%Z eqn:Hlt.
      * apply Z.ltb_lt in Hlt.
        destruct (IH (S a) {| logger := logger s;
                              history := history s ++ evs ++ [EvSleep q] |})
          as (evs' & b & Hrun & ->); [lia|].
        destruct n as [|n']; [lia|].
        exists (evs ++ EvSleep q :: evs'), b. split.
        -- by eapply probe_retry.
        -- cbn [logger history]. do 2 f_equal.
           rewrite <- !app_assoc. reflexivity.
      * apply Z.ltb_ge in Hlt. assert (n = 0)%nat as -> by lia.
        exists evs, false. split; [by eapply probe_last_miss|done].
Qed.

(** A run of the probe is a run in the sense of [probe_events]. *)
Lemma probe_run_spec (s : St) :
  ∃ evs b,
    probe_events client fileConfig (Z.to_nat max_retries) (history s) evs b ∧
    check_document_in_weaviate_with_retry client fileConfig max_retries s
    = ({| logger := logger s; history := history s ++ evs |}, Ok b).
Proof.
  destruct (probe_loop_events (Z.to_nat max_retries) 0 s) as (evs & b & Hrun & Heq);
    [done|].
  unfold check_document_in_weaviate_with_retry, mbind, M_bind, range.
  rewrite Heq.
  destruct (Z.to_nat max_retries) as [|n] eqn:Hn.
  - inversion Hrun; subst. by exists [], false.
  - by exists evs, b.
Qed.

End ProbeRuns.

Section ProbeShapes.

Variables (client : Client) (fileConfig : FileConfig).

Lemma attempt_events_counts (h : trace) (evs : list event) (o : attempt_outcome) :
  attempt_events client fileConfig h evs o →
  probe_attempts evs = 1%nat ∧
  pauses evs = [] ∧
  (fallback_queries evs ≤ 1)%nat ∧
  (∀ q, o = Miss q → q = 1%Q ∨ q = 2%Q).
Proof.
  destruct 1 as [e He|He|objs He Hb|e He Hb Ht|e r He Hb Ht Hf];
    (split; [reflexivity|]); (split; [reflexivity|]);
    (split; [cbn; lia|]); intros q Hq.
  - injection Hq as <-. by right.
  - injection Hq as <-. by left.
  - destruct (existsb _ _); [discriminate|]. injection Hq as <-. by right.
  - injection Hq as <-. by right.
  - destruct r as [[|d ds]|e']; try discriminate; injection Hq as <-; by right.
Qed.

Lemma pauses_app (evs1 evs2 : trace) :
  pauses (evs1 ++ evs2) = pauses evs1 ++ pauses evs2.
Proof. unfold pauses. apply omap_app. Qed.

Lemma fallback_queries_app (evs1 evs2 : trace) :
  fallback_queries (evs1 ++ evs2)
  = (fallback_queries evs1 + fallback_queries evs2)%nat.
Proof. unfold fallback_queries. by rewrite List.filter_app, length_app. Qed.

Lemma probe_events_counts (n : nat) (h : trace) (evs : list event) (b : bool) :
  probe_events client fileConfig n h evs b →
  (probe_attempts evs ≤ n)%nat ∧
  (n = 0%nat → evs = []) ∧
  ((0 < n)%nat → (1 ≤ probe_attempts evs)%nat) ∧
  length (pauses evs) = (probe_attempts evs - 1)%nat ∧
  (∀ q, q ∈ pauses evs → q = 1%Q ∨ q = 2%Q) ∧
  (fallback_queries evs ≤ probe_attempts evs)%nat ∧
  (b = false → probe_attempts evs = n).
Proof.
  induction 1 as [h|n h evs Hev|h evs q Hev|n h evs q evs' b Hev _ IH].
  - split_and!; try done; try (cbn; lia). intros q Hq. by apply elem_of_nil in Hq.
  - destruct (attempt_events_counts _ _ _ Hev) as (Ha & Hp & Hf & _).
    rewrite Ha, Hp. split_and!; try done; try (cbn; lia).
    intros q Hq. by apply elem_of_nil in Hq.
  - destruct (attempt_events_counts _ _ _ Hev) as (Ha & Hp & Hf & _).
    rewrite Ha, Hp. split_and!; try done; try (cbn; lia).
    intros q' Hq. by apply elem_of_nil in Hq.
  - destruct (attempt_events_counts _ _ _ Hev) as (Ha & Hp & Hf & Hq).
    destruct IH as (IH1 & _ & IH3 & IH4 & IH5 & IH6 & IH7).
    specialize (IH3 ltac:(lia)).
    change (evs ++ EvSleep q :: evs') with (evs ++ [EvSleep q] ++ evs').
    rewrite !probe_attempts_app, !pauses_app, !fallback_queries_app, Ha, Hp.
    change (probe_attempts [EvSleep q]) with 0%nat.
    change (fallback_queries [EvSleep q]) with 0%nat.
    change (pauses [EvSleep q]) with [q]. cbn [app length].
    split_and!; try lia; try done.
    + intros q' Hq'. apply elem_of_cons in Hq' as [->|Hq']; [by apply Hq|by apply IH5].
    + intros Hb. specialize (IH7 Hb). lia.
Qed.

End ProbeShapes.

Section ProbeExtras.

Variables (client : Client) (fileConfig : FileConfig).


Lemma attempt_events_missing (h : trace) (evs : list event) (o : attempt_outcome) :
  (∀ h, collections_exists client h "VERBA_DOCUMENTS" = Ok false) →
  attempt_events client fileConfig h evs o →
  evs = [EvExists "VERBA_DOCUMENTS" (Ok false)] ∧ o = Miss 1.
Proof.
  intros Hmissing.
  destruct 1 as [e He|He|objs He Hb|e He Hb Ht|e r He Hb Ht Hf];
    rewrite Hmissing in He; by try discriminate He.
Qed.

Lemma probe_events_missing (n : nat) (h : trace) (evs : list event) (b : bool) :
  (∀ h, collections_exists client h "VERBA_DOCUMENTS" = Ok false) →
  probe_events client fileConfig n h evs b →
  evs = missing_collection_events n ∧ b = false.
Proof.
  intros Hmissing.
  induction 1 as [h|n h evs Hev|h evs q Hev|n h evs q evs' b Hev _ IH].
  - done.
  - by destruct (attempt_events_missing _ _ _ Hmissing Hev).
  - by destruct (attempt_events_missing _ _ _ Hmissing Hev) as [-> _].
  - destruct (attempt_events_missing _ _ _ Hmissing Hev) as [-> Hq].
    injection Hq as ->. destruct IH as [-> ->]. done.
Qed.

(** X14. While the collection does not exist the probe never queries it:
    every attempt is one call of [collections.exists], the attempts are a
    second apart, and the answer is [False]. *)
Theorem probe_without_collection (max_retries : Z) (s : St) :
  (∀ h, collections_exists client h "VERBA_DOCUMENTS" = Ok false) →
  check_document_in_weaviate_with_retry client fileConfig max_retries s
  = ({| logger := logger s;
        history := history s ++ missing_collection_events (Z.to_nat max_retries) |},
     Ok false).
Proof.
  intros Hmissing.
  destruct (probe_run_spec client fileConfig max_retries s) as (evs & b & Hrun & ->).
  by destruct (probe_events_missing _ _ _ _ Hmissing Hrun) as [-> ->].
Qed.

Lemma attempt_events_fallback (h : trace) (evs : list event) (o : attempt_outcome)
    (i : nat) (t : string) (l : Z) (r : result (list Doc)) :
  attempt_events client fileConfig h evs o →
  evs !! i = Some (EvFetch t l r) →
  t = filename fileConfig ∧ l = 1%Z ∧ after_timeout fileConfig evs i.
Proof.
  destruct 1 as [e He|He|objs He Hb|e He Hb Ht|e r' He Hb Ht Hf];
    destruct i as [|[|[|i]]]; cbn; intros Hi; try discriminate Hi.
  injection Hi as <- <- <-. split; [done|]. split; [done|].
  destruct e; try discriminate Ht. by exists 1%nat, m.
Qed.

Lemma probe_events_fallback (n : nat) (h : trace) (evs : list event) (b : bool)
    (i : nat) (t : string) (l : Z) (r : result (list Doc)) :
  probe_events client fileConfig n h evs b →
  evs !! i = Some (EvFetch t l r) →
  t = filename fileConfig ∧ l = 1%Z ∧ after_timeout fileConfig evs i.
Proof.
  intros Hrun. revert i.
  induction Hrun as [h|n h evs Hev|h evs q Hev|n h evs q evs' b Hev _ IH];
    intros i Hi.
  - by rewrite lookup_nil in Hi.
  - by eapply attempt_events_fallback.
  - by eapply attempt_events_fallback.
  - destruct (decide (i < length evs)%nat) as [Hlt|Hge].
    + rewrite lookup_app_l in Hi by done.
      destruct (attempt_events_fallback _ _ _ _ _ _ _ Hev Hi)
        as (-> & -> & j & m & -> & Hj).
      split; [done|]. split; [done|]. exists j, m. split; [done|].
      rewrite lookup_app_l; [done|lia].
    + rewrite lookup_app_r in Hi by lia.
      destruct (i - length evs)%nat as [|k] eqn:Hk; [discriminate Hi|].
      cbn in Hi. destruct (IH k Hi) as (-> & -> & j & m & -> & Hj).
      split; [done|]. split; [done|].
      exists (length evs + S j)%nat, m. split; [lia|].
      rewrite lookup_app_r by lia.
      replace (length evs + S j - length evs)%nat with (S j) by lia. done.
Qed.

(** X15. The fallback query is issued only right after the ranked search
    of the same attempt has timed out, at most once per attempt, and always
    for the exact file name with a limit of one object. *)
Theorem fallback_only_after_timeout (max_retries : Z) (s : St) :
  ∃ evs b,
    check_document_in_weaviate_with_retry client fileConfig max_retries s
    = ({| logger := logger s; history := history s ++ evs |}, Ok b) ∧
    (fallback_queries evs ≤ probe_attempts evs)%nat ∧
    ∀ i t l r,
      evs !! i = Some (EvFetch t l r) →
      t = filename fileConfig ∧ l = 1%Z ∧
      ∃ j m, i = S j ∧
             evs !! j
             = Some (EvBm25 (filename fileConfig) 5 (Raise (TimeoutError m))).
Proof.
  destruct (probe_run_spec client fileConfig max_retries s) as (evs & b & Hrun & Heq).
  exists evs, b. split; [done|].
  destruct (probe_events_counts _ _ _ _ _ _ Hrun) as (_ & _ & _ & _ & _ & Hf & _).
  split; [done|].
  intros i t l r Hi. by eapply probe_events_fallback.
Qed.

(** X16. The wrapper kept for older callers probes with three attempts:
    it never raises, calls the store for at most three attempts and at most
    three fallback queries, and pauses at most twice, 1 or 2 seconds each
    time. *)
Theorem check_document_in_weaviate_is_bounded (s : St) :
  ∃ evs b,
    check_document_in_weaviate client fileConfig s
    = ({| logger := logger s; history := history s ++ evs |}, Ok b) ∧
    (probe_attempts evs ≤ 3)%nat ∧
    (fallback_queries evs ≤ 3)%nat ∧
    (length (pauses evs) ≤ 2)%nat ∧
    (∀ q, q ∈ pauses evs → q = 1%Q ∨ q = 2%Q).
Proof.
  unfold check_document_in_weaviate.
  destruct (probe_run_spec client fileConfig 3 s) as (evs & b & Hrun & Heq).
  exists evs, b. split; [done|].
  destruct (probe_events_counts _ _ _ _ _ _ Hrun)
    as (Hn & _ & _ & Hp & Hq & Hf & _).
  change (Z.to_nat 3) with 3%nat in Hn.
  split_and!; try done; lia.
Qed.

End ProbeExtras.

Lemma probe_without_collection_witness :
  check_document_in_weaviate_with_retry
    {| collections_exists := λ _ _, Ok false;
       query_bm25 := λ _ _ _, Ok [];
       query_fetch_objects := λ _ _ _, Ok [] |}
    {| fc_fileID := "f1"; filename := "A.pdf" |} 3 idle_state
  = ({| logger := logger idle_state;
        history := [EvExists "VERBA_DOCUMENTS" (Ok false); EvSleep 1;
                    EvExists "VERBA_DOCUMENTS" (Ok false); EvSleep 1;
                    EvExists "VERBA_DOCUMENTS" (Ok false)] |},
     Ok false).
Proof.
  apply (probe_without_collection
           {| collections_exists := λ _ _, Ok false;
              query_bm25 := λ _ _ _, Ok [];
              query_fetch_objects := λ _ _ _, Ok [] |}
           {| fc_fileID := "f1"; filename := "A.pdf" |} 3 idle_state).
  reflexivity.
Defined.


Lemma fallback_only_after_timeout_witness :
  ∃ evs b,
    check_document_in_weaviate_with_retry
      {| collections_exists := λ _ _, Ok true;
         query_bm25 := λ _ _ _, Raise (TimeoutError "");
         query_fetch_objects := λ _ _ _, Ok [] |}
      {| fc_fileID := "f1"; filename := "A.pdf" |} 2 idle_state
    = ({| logger := logger idle_state; history := history idle_state ++ evs |},
       Ok b) ∧
    (fallback_queries evs ≤ probe_attempts evs)%nat.
Proof.
  destruct (fallback_only_after_timeout
              {| collections_exists := λ _ _, Ok true;
                 query_bm25 := λ _ _ _, Raise (TimeoutError "");
                 query_fetch_objects := λ _ _ _, Ok [] |}
              {| fc_fileID := "f1"; filename := "A.pdf" |} 2 idle_state)
    as (evs & b & Hrun & Hf & _).
  by exists evs, b.
Defined.

Lemma check_document_in_weaviate_is_bounded_witness :
  ∃ evs b,
    check_document_in_weaviate
      (sample_store [{| uuid := "u-1"; title := Some "AA.pdf" |}])
      {| fc_fileID := "f1"; filename := "A.pdf" |} idle_state
    = ({| logger := logger idle_state; history := history idle_state ++ evs |},
       Ok b) ∧
    (probe_attempts evs ≤ 3)%nat ∧ (length (pauses evs) ≤ 2)%nat.
Proof.
  destruct (check_document_in_weaviate_is_bounded
              (sample_store [{| uuid := "u-1"; title := Some "AA.pdf" |}])
              {| fc_fileID := "f1"; filename := "A.pdf" |} idle_state)
    as (evs & b & Hrun & Hn & _ & Hp & _).
  by exists evs, b.
Defined.

(** ** The reconciler's verification, and the handler around it *)

Section ReconcilerPlan.

Variable import_document : Client → FileConfig → option Credentials → M St unit.
Variable connect : trace → Credentials → result Client.
Variable clock : trace → Q.

(** X17. How the reconciler verifies: once the importer is back it waits
    2 seconds, then probes, with three attempts, on a fresh connection when
    credentials were given and the connection could be made, and on the
    connection it was handed otherwise. The duration it reports is taken
    before that wait: it covers the importer alone. *)
Theorem reconciler_probes_fresh_connection_else_supplied (client : Client)
    (fileConfig : FileConfig) (credentials : option Credentials) (s : St) :
  let imported := import_document client fileConfig credentials s in
  let import_error := match snd imported with
                      | Ok _ => None
                      | Raise e => Some e
                      end in
  let returned := history (fst imported) ++ [EvImportReturned import_error] in
  let settled := returned ++ [EvSleep 2] in
  let plan :=
    match credentials with
    | None => (client, settled)
    | Some creds =>
        match connect settled creds with
        | Ok fresh => (fresh, settled ++ [EvConnect None])
        | Raise e => (client, settled ++ [EvConnect (Some e)])
        end
    end in
  ∃ s1 document_exists,
    check_document_in_weaviate_with_retry (fst plan) fileConfig 3
      {| logger := logger (fst imported); history := snd plan |}
    = (s1, Ok document_exists) ∧
    import_and_verify import_document connect clock client fileConfig credentials s
    = (s1, Ok (import_error, (clock returned - clock (history s))%Q,
               document_exists)).
Proof.
  cbn zeta.
  unfold import_and_verify, client_manager_connect, mbind, M_bind, time_time,
    try_except, sleep, emit, get_history, lift_result, mret, M_ret.
  destruct (import_document client fileConfig credentials s) as [s1 [[]|e]];
    cbn [history logger fst snd];
    (destruct credentials as [creds|];
     [destruct (connect _ creds) as [vc|ce]|]);
    cbn [fst snd history logger];
    match goal with
    | |- context [check_document_in_weaviate_with_retry ?c ?f ?m ?st] =>
        let Hp := fresh "Hp" in
        destruct (probe_never_raises c f m st) as (? & ? & Hp); rewrite ?Hp
    end;
    eauto.
Qed.

End ReconcilerPlan.

Lemma add_batch_completed parse (p : DataBatchPayload) (bm b' : BatchManager)
    (cfg : FileConfig) :
  add_batch parse p bm = (b', Ok (Some cfg)) →
  b' = delete (fileID p) bm.
Proof.
  rewrite add_batch_spec. cbn zeta.
  destruct (_ =? _)%Z; [destruct (parse _)|destruct (isLastChunk p)];
    intros H; by inversion H.
Qed.

Lemma resilient_import_document_unfold
    (import_document : Client → FileConfig → option Credentials → M St unit)
    (connect : trace → Credentials → result Client) (clock : trace → Q)
    (client : Client) (fileConfig : FileConfig) (credentials : option Credentials)
    (s s1 : St) (import_error : option exn) (total_time : Q)
    (document_exists : bool) :
  import_and_verify import_document connect clock client fileConfig credentials s
    = (s1, Ok (import_error, total_time, document_exists)) →
  resilient_import_document import_document connect clock client fileConfig
    credentials s
  = report_outcome fileConfig import_error total_time document_exists s1.
Proof.
  intros H. unfold resilient_import_document, mbind, M_bind. by rewrite H.
Qed.

Section ImportFilesFacts.

Variable parse_payload : string → result DataBatchPayload.
Variable model_validate_json : string → result FileConfig.
Variable import_document : Client → FileConfig → option Credentials → M St unit.
Variable connect_any : trace → option Credentials → result Client.
Variable clock : trace → Q.

Let step := import_files_step parse_payload model_validate_json import_document
              connect_any clock.

(** X18. An import that the reconciler ends in error is reported twice:
    the reconciler's own ERROR report is followed by a second ERROR report
    of the handler, "Resilient import failed: ..." with a duration of 0,
    and the loop goes on. *)
Theorem failed_import_is_reported_twice (hs : Handler) (data : string)
    (p : DataBatchPayload) (b' : BatchManager) (cfg : FileConfig)
    (client : Client) (s1 : St) (import_error : option exn) (total_time : Q) :
  parse_payload data = Ok p →
  add_batch model_validate_json p (batcher hs) = (b', Ok (Some cfg)) →
  connect_any (history (world hs)) (credentials p) = Ok client →
  import_and_verify import_document (λ h creds, connect_any h (Some creds)) clock
    client cfg (credentials p)
    {| logger := logger (world hs);
       history := history (world hs) ++ [EvConnect None] |}
  = (s1, Ok (import_error, total_time, false)) →
  ∃ s3 evs1 evs2,
    step (Received data) hs = ({| batcher := b'; world := s3 |}, Ok Continue) ∧
    history s3
    = history s1
        ++ EvReport {| sr_fileID := fc_fileID cfg; sr_status := ERROR;
                       sr_message := chosen_message import_error;
                       sr_took := total_time |} :: evs1
        ++ EvReport {| sr_fileID := fc_fileID cfg; sr_status := ERROR;
                       sr_message := "Resilient import failed: "
                                       +:+ str_exn (chosen_error import_error);
                       sr_took := 0%Q |} :: evs2 ∧
    forallb is_transport evs1 = true ∧
    forallb is_transport evs2 = true.
Proof.
  intros Hparse Hadd Hconnect Hverify.
  pose proof (resilient_import_document_unfold _ _ _ _ _ _ _ _ _ _ _ Hverify)
    as Hrun.
  destruct (report_outcome_spec cfg import_error total_time false s1)
    as (s2 & evs1 & Hrep & Hh2 & Ht1).
  destruct (send_report_history (fc_fileID cfg) ERROR
              ("Resilient import failed: " +:+ str_exn (chosen_error import_error))
              0%Q s2) as (s3 & evs2 & Hsend & Hh3 & Ht2).
  exists s3, evs1, evs2. split; [|split; [|done]].
  - unfold step, import_files_step, handle_frame, try_except, on_batcher,
      on_world, connect_for_import, lift_result, mbind, M_bind, get_history,
      emit.
    rewrite Hparse, Hadd. cbn [batcher world history logger].
    rewrite Hconnect. cbn [batcher world history logger].
    rewrite Hrun, Hrep. cbn [batcher world]. by rewrite Hsend.
  - rewrite Hh3, Hh2, <- app_assoc. reflexivity.
Qed.

(** X19. When the last fragment has completed the upload and the
    connection to the store cannot be made, the upload is dropped without
    a word: its session is gone from the table, the importer is not run and
    no status report is issued. *)
Theorem upload_is_dropped_when_connect_fails (hs : Handler) (data : string)
    (p : DataBatchPayload) (b' : BatchManager) (cfg : FileConfig) (e : exn) :
  parse_payload data = Ok p →
  add_batch model_validate_json p (batcher hs) = (b', Ok (Some cfg)) →
  connect_any (history (world hs)) (credentials p) = Raise e →
  step (Received data) hs
  = ({| batcher := b';
        world := {| logger := logger (world hs);
                    history := history (world hs) ++ [EvConnect (Some e)] |} |},
     Ok (if is_closed_connection_error e then Break else Continue)) ∧
  b' !! fileID p = None.
Proof.
  intros Hparse Hadd Hconnect. split.
  - unfold step, import_files_step, handle_frame, try_except, on_batcher,
      on_world, connect_for_import, lift_result, mbind, M_bind, get_history,
      emit, on_loop_error.
    rewrite Hparse, Hadd. cbn [batcher world history logger].
    rewrite Hconnect. cbn [batcher world history logger].
    by destruct (is_closed_connection_error e).
  - rewrite (add_batch_completed _ _ _ _ _ Hadd). apply lookup_delete_eq.
Qed.

(** X20. A frame that is not a valid payload is skipped: nothing changes
    and the loop reads the next frame, unless the text of the validation
    error holds one of the four closed-connection phrases, in which case
    the loop ends. *)
Theorem invalid_frame_is_skipped (hs : Handler) (data : string) (e : exn) :
  parse_payload data = Raise e →
  step (Received data) hs
  = (hs, Ok (if is_closed_connection_error e then Break else Continue)).
Proof.
  intros Hparse.
  unfold step, import_files_step, handle_frame, try_except, lift_result,
    mbind, M_bind, on_loop_error.
  rewrite Hparse. by destruct (is_closed_connection_error e).
Qed.

Lemma import_files_step_never_raises (frame : received) (hs : Handler) :
  ∃ hs' r, step frame hs = (hs', Ok r).
Proof.
  assert (Herr : ∀ e hs, ∃ hs' r, on_loop_error e hs = (hs', Ok r)).
  { intros e hs0. unfold on_loop_error.
    destruct (is_closed_connection_error e); eauto. }
  destruct frame as [data| |e]; cbn.
  - by apply try_except_total.
  - eauto.
  - apply Herr.
Qed.

(** X21. No turn of the loop of the handler lets an exception out:
    whatever the frames, the parsers, the store, the importer and the socket
    do, after any number of frames the loop has either been left through
    [break] or is back at [receive_text]; it has not raised. *)
Theorem import_files_turns_never_raise (frames : list received) (hs : Handler) :
  ∃ hs' r,
    import_files_loop parse_payload model_validate_json import_document
      connect_any clock frames hs = (hs', Ok r).
Proof.
  revert hs. induction frames as [|frame rest IH]; intros hs;
    [by exists hs, Continue|].
  cbn [import_files_loop]. unfold mbind, M_bind.
  destruct (import_files_step_never_raises frame hs) as (hs1 & r & Hstep).
  unfold step in Hstep. rewrite Hstep.
  destruct r; [apply IH|by exists hs1, Break].
Qed.

End ImportFilesFacts.

Lemma failed_import_is_reported_twice_witness :
  ∃ s3 evs1 evs2,
    import_files_step (λ data, Ok (fragment "f1" 0 data 1 true)) lenient_parser
      (λ _ _ _, mret tt)
      (λ _ _, Ok {| collections_exists := λ _ _, Ok false;
                    query_bm25 := λ _ _ _, Ok [];
                    query_fetch_objects := λ _ _ _, Ok [] |})
      (λ _, 0%Q) (Received "{}")
      {| batcher := BatchManager_init; world := fresh_reporter open_socket |}
    = ({| batcher := BatchManager_init; world := s3 |}, Ok Continue) ∧
    history s3
    = [EvConnect None; EvImportReturned None; EvSleep 2;
       EvExists "VERBA_DOCUMENTS" (Ok false); EvSleep 1;
       EvExists "VERBA_DOCUMENTS" (Ok false); EvSleep 1;
       EvExists "VERBA_DOCUMENTS" (Ok false)]
        ++ EvReport {| sr_fileID := "f1"; sr_status := ERROR;
                       sr_message := chosen_message None;
                       sr_took := (0 - 0)%Q |} :: evs1
        ++ EvReport {| sr_fileID := "f1"; sr_status := ERROR;
                       sr_message := "Resilient import failed: "
                                       +:+ str_exn (chosen_error None);
                       sr_took := 0%Q |} :: evs2 ∧
    forallb is_transport evs1 = true ∧
    forallb is_transport evs2 = true.
Proof.
  apply (failed_import_is_reported_twice
           (λ data, Ok (fragment "f1" 0 data 1 true)) lenient_parser
           (λ _ _ _, mret tt)
           (λ _ _, Ok {| collections_exists := λ _ _, Ok false;
                         query_bm25 := λ _ _ _, Ok [];
                         query_fetch_objects := λ _ _ _, Ok [] |})
           (λ _, 0%Q)
           {| batcher := BatchManager_init; world := fresh_reporter open_socket |}
           "{}" (fragment "f1" 0 "{}" 1 true) BatchManager_init
           {| fc_fileID := "f1"; filename := "{}" |}
           {| collections_exists := λ _ _, Ok false;
              query_bm25 := λ _ _ _, Ok [];
              query_fetch_objects := λ _ _ _, Ok [] |}
           {| logger := LoggerManager_init (Some open_socket);
              history :=
                [EvConnect None; EvImportReturned None; EvSleep 2;
                 EvExists "VERBA_DOCUMENTS" (Ok false); EvSleep 1;
                 EvExists "VERBA_DOCUMENTS" (Ok false); EvSleep 1;
                 EvExists "VERBA_DOCUMENTS" (Ok false)] |}
           None (0 - 0)%Q).
  - reflexivity.
  - reflexivity.
  - reflexivity.
  - reflexivity.
Defined.

Lemma upload_is_dropped_when_connect_fails_witness :
  import_files_step (λ data, Ok (fragment "f1" 0 data 1 true)) lenient_parser
    (λ _ _ _, mret tt) (λ _ _, Raise (Exception "no route to the store"))
    (λ _, 0%Q) (Received "{}")
    {| batcher := BatchManager_init; world := fresh_reporter open_socket |}
  = ({| batcher := BatchManager_init;
        world := {| logger := LoggerManager_init (Some open_socket);
                    history := [] ++ [EvConnect
                                 (Some (Exception "no route to the store"))] |} |},
     Ok (if is_closed_connection_error (Exception "no route to the store")
         then Break else Continue)) ∧
  (BatchManager_init : BatchManager) !! "f1" = None.
Proof.
  apply (upload_is_dropped_when_connect_fails
           (λ data, Ok (fragment "f1" 0 data 1 true)) lenient_parser
           (λ _ _ _, mret tt) (λ _ _, Raise (Exception "no route to the store"))
           (λ _, 0%Q)
           {| batcher := BatchManager_init; world := fresh_reporter open_socket |}
           "{}" (fragment "f1" 0 "{}" 1 true) BatchManager_init
           {| fc_fileID := "f1"; filename := "{}" |}
           (Exception "no route to the store")).
  - reflexivity.
  - reflexivity.
  - reflexivity.
Defined.

Lemma invalid_frame_is_skipped_witness :
  import_files_step (λ _, Raise (ValidationError "Invalid JSON")) lenient_parser
    (λ _ _ _, mret tt) (λ _ _, Raise (Exception "no route to the store"))
    (λ _, 0%Q) (Received "not a payload")
    {| batcher := BatchManager_init; world := fresh_reporter open_socket |}
  = ({| batcher := BatchManager_init; world := fresh_reporter open_socket |},
     Ok (if is_closed_connection_error (ValidationError "Invalid JSON")
         then Break else Continue)).
Proof.
  apply (invalid_frame_is_skipped
           (λ _, Raise (ValidationError "Invalid JSON")) lenient_parser
           (λ _ _ _, mret tt) (λ _ _, Raise (Exception "no route to the store"))
           (λ _, 0%Q)
           {| batcher := BatchManager_init; world := fresh_reporter open_socket |}
           "not a payload" (ValidationError "Invalid JSON")).
  reflexivity.
Defined.

(** ** The same-origin middleware *)

Lemma rstrip_no_trailing (c : ascii) (s : string) :
  ends_with c (rstrip c s) = false.
Proof.
  induction s as [|a rest IH]; [done|]. cbn [rstrip].
  destruct (rstrip c rest) as [|b r] eqn:E.
  - destruct (Ascii.eqb a c) eqn:Ea; [done|]. cbn. exact Ea.
  - exact IH.
Qed.

Lemma rstrip_append (c : ascii) (s : string) :
  rstrip c (s +:+ String c EmptyString) = rstrip c s.
Proof.
  induction s as [|a rest IH].
  - change (rstrip c (String c EmptyString) = EmptyString). cbn.
    by rewrite Ascii.eqb_refl.
  - change (rstrip c (String a (rest +:+ String c EmptyString))
            = rstrip c (String a rest)).
    cbn [rstrip]. by rewrite IH.
Qed.

(** X22. On an API route other than the health check, an Origin that ends
    in a slash is refused with a 403 unless the server is reached as
    localhost: the base URL is compared with its trailing slashes taken
    off, so a copy of the expected origin printed in the error details
    does not pass either. *)
Theorem origin_ending_in_slash_is_refused (request : Request) (o : string) :
  String.prefix "/api/" (url_path request) = true →
  url_path request ≠ "/api/health" →
  origin request = Some o →
  ends_with "/" o = true →
  base_url_hostname request ≠ Some "localhost" →
  check_same_origin request = Forbidden (Some o) (base_url request).
Proof.
  intros Hapi Hhealth Ho Hslash Hhost.
  unfold check_same_origin, origin_accepted. rewrite Ho, Hapi.
  rewrite (bool_decide_eq_false_2 _ Hhealth).
  rewrite (bool_decide_eq_false_2 _ Hhost), andb_false_r, orb_false_r.
  rewrite bool_decide_eq_false_2; [done|].
  intros [= ->]. by rewrite rstrip_no_trailing in Hslash.
Qed.

(** X23. The trailing slashes of the server's base URL play no part in
    the decision of the middleware: with one more slash at the end of the
    base URL the same requests go through and the same are refused. *)
Theorem base_url_trailing_slash_is_immaterial (request : Request) :
  forwarded (check_same_origin
               {| url_path := url_path request;
                  origin := origin request;
                  base_url := base_url request +:+ "/";
                  base_url_hostname := base_url_hostname request |})
  = forwarded (check_same_origin request).
Proof.
  unfold check_same_origin, origin_accepted. cbn [url_path origin base_url
    base_url_hostname].
  rewrite (rstrip_append "/" (base_url request)).
  destruct (bool_decide (url_path request = "/api/health")); [done|].
  destruct (_ || _); [done|].
  by destruct (String.prefix "/api/" (url_path request)).
Qed.

Lemma origin_ending_in_slash_is_refused_witness :
  check_same_origin
    {| url_path := "/api/get_rag_config";
       origin := Some "http://verba.example.org:8000/";
       base_url := "http://verba.example.org:8000/";
       base_url_hostname := Some "verba.example.org" |}
  = Forbidden (Some "http://verba.example.org:8000/")
      "http://verba.example.org:8000/".
Proof.
  apply (origin_ending_in_slash_is_refused
           {| url_path := "/api/get_rag_config";
              origin := Some "http://verba.example.org:8000/";
              base_url := "http://verba.example.org:8000/";
              base_url_hostname := Some "verba.example.org" |}
           "http://verba.example.org:8000/").
  - reflexivity.
  - discriminate.
  - reflexivity.
  - reflexivity.
  - discriminate.
Defined.
